(** * unclut.ai Gmail extension: a shallow embedding and its properties

    The development follows the layout of the extension:
    - [Js]: the string primitives the scripts rely on ([trim], [parseInt],
      truthiness) and [Error] objects;
    - [Dom]: elements with their attributes, classes and text;
    - [GmailUtils]: gmailUtils.js, the DOM scraping helpers;
    - [Chrome]: stored values, the storage area and runtime messages;
    - [Popup]: popup.js, the settings form mirrored to [chrome.storage.sync];
    - [Background]: background.js, the message listener and the two stubbed
      actions, written in a small state/error monad for [async] functions;
    - [Actions]: actions.js, the second pair of stubs and their join;
    - [ContentScript]: contentScript.js, the retry loop, the readiness
      detector, button injection and the toast.

    Definitions come first; the statements about them follow. *)

From Stdlib Require Import ZArith List String Ascii Bool Lia.
From stdpp Require Import gmap strings pretty.
Import ListNotations.

Local Open Scope string_scope.
Local Open Scope Z_scope.

(* ===================================================================== *)
(** * JavaScript values and string primitives                             *)
(* ===================================================================== *)

Module Js.

(** An [Error] object; only its [message] is ever inspected. *)
Record error := Error { message : string }.

(** Strings are sequences of code units; the embedding keeps the code
    units below 256, so the white space of ECMAScript's [StrWhiteSpaceChar]
    that is representable is TAB, LF, VT, FF, CR, SPACE and NBSP. *)
Definition is_white_space (c : ascii) : bool :=
  let n := nat_of_ascii c in
  ((9 <=? n)%nat && (n <=? 13)%nat) || (n =? 32)%nat || (n =? 160)%nat.

Fixpoint trim_start (s : string) : string :=
  match s with
  | String c rest => if is_white_space c then trim_start rest else s
  | EmptyString => EmptyString
  end.

(** [trim_end] drops the trailing white space: a character is kept when it
    is not white space or when something that is kept follows it. *)
Fixpoint trim_end (s : string) : string :=
  match s with
  | String c rest =>
      match trim_end rest with
      | EmptyString => if is_white_space c then EmptyString else String c EmptyString
      | kept => String c kept
      end
  | EmptyString => EmptyString
  end.

(** [String.prototype.trim]. *)
Definition trim (s : string) : string := trim_end (trim_start s).

(** Truthiness of a string: only the empty string is falsy. *)
Definition truthy_string (s : string) : bool :=
  match s with EmptyString => false | _ => true end.

Definition digit_value (c : ascii) : option Z :=
  let n := nat_of_ascii c in
  if ((48 <=? n)%nat && (n <=? 57)%nat) then Some (Z.of_nat n - 48) else None.

(** The longest prefix of decimal digits, accumulated left to right; the
    second component tells whether any digit was read. *)
Fixpoint parse_digits (s : string) (acc : Z) (seen : bool) : Z * bool :=
  match s with
  | String c rest =>
      match digit_value c with
      | Some d => parse_digits rest (10 * acc + d) true
      | None => (acc, seen)
      end
  | EmptyString => (acc, seen)
  end.

(** [parseInt(s, 10)]: leading white space is skipped, one sign is
    accepted, then the longest run of digits is read.  [None] stands for
    [NaN].  The mathematical value is kept exactly; a JavaScript number
    rounds it to a double beyond 2^53 and to [Infinity] from 309 digits
    on, which changes neither whether the result is [NaN] nor whether it
    is zero.  The value is the JavaScript number itself when it is a
    safe integer ([is_safe_integer] below). *)
Definition parseInt10 (s : string) : option Z :=
  match trim_start s with
  | String "-" rest =>
      let '(v, seen) := parse_digits rest 0 false in
      if seen then Some (- v) else None
  | String "+" rest =>
      let '(v, seen) := parse_digits rest 0 false in
      if seen then Some v else None
  | t =>
      let '(v, seen) := parse_digits t 0 false in
      if seen then Some v else None
  end.

(** Whether [needle] occurs in [hay] ([String.prototype.includes]). *)
Fixpoint includes (hay needle : string) : bool :=
  String.prefix needle hay ||
  match hay with
  | String _ rest => includes rest needle
  | EmptyString => false
  end.

(** [Number.isSafeInteger], on integers: at most 2^53 - 1 in absolute
    value.  On these, a number is the integer itself: [parseInt] is
    exact and the text of the number is its plain decimal notation. *)
Definition is_safe_integer (n : Z) : bool := Z.abs n <=? 2 ^ 53 - 1.

End Js.

(* ===================================================================== *)
(** * DOM elements, as far as the scripts look at them                    *)
(* ===================================================================== *)

Module Dom.

Record element := mkElement {
  tagName : string;
  attributes : list (string * string);
  classList : list string;
  textContent : string
}.

(** [el.getAttribute(name)]: [None] is [null]. *)
Fixpoint lookup_attribute (name : string) (attrs : list (string * string))
  : option string :=
  match attrs with
  | (k, v) :: rest => if String.eqb k name then Some v else lookup_attribute name rest
  | [] => None
  end.

Definition getAttribute (name : string) (el : element) : option string :=
  lookup_attribute name (attributes el).

(** The attribute selector [[name]]. *)
Definition hasAttribute (name : string) (el : element) : bool :=
  match getAttribute name el with Some _ => true | None => false end.

(** [el.classList.contains(c)]. *)
Definition has_class (c : string) (el_classes : list string) : bool :=
  existsb (String.eqb c) el_classes.

End Dom.

(* ===================================================================== *)
(** * gmailUtils.js                                                       *)
(* ===================================================================== *)

Module GmailUtils.
Import Js Dom.

(** A message row, seen through [querySelector]: its descendant elements
    in document order. *)
Record row := mkRow { descendants : list element }.

(** [row.querySelector('[name]')]: the first descendant carrying the
    attribute. *)
Definition querySelectorAttr (name : string) (r : row) : option element :=
  find (hasAttribute name) (descendants r).

(** [getSenderEmail]; [None] is [null]. *)
Definition getSenderEmail (r : row) : option string :=
  match querySelectorAttr "email" r with
  | Some emailElement => getAttribute "email" emailElement
  | None =>
      match querySelectorAttr "name" r with
      | Some nameElement => getAttribute "name" nameElement
      | None => None
      end
  end.

(** [x || fallback] on a string-or-null. *)
Definition or_else (x : option string) (fallback : string) : string :=
  match x with
  | Some s => if truthy_string s then s else fallback
  | None => fallback
  end.

(** [getSenderDisplayName]. *)
Definition getSenderDisplayName (r : row) : string :=
  match querySelectorAttr "name" r with
  | Some nameElement =>
      if truthy_string (textContent nameElement)
      then trim (textContent nameElement)
      else or_else (getSenderEmail r) "Unknown Sender"
  | None => or_else (getSenderEmail r) "Unknown Sender"
  end.

(** The display name as the specification words it: the trimmed text of
    the name element when present and non-empty, otherwise the sender
    email when that is non-null, otherwise the constant. *)
Definition display_name_as_specified (r : row) : string :=
  match querySelectorAttr "name" r with
  | Some nameElement =>
      if truthy_string (textContent nameElement)
      then trim (textContent nameElement)
      else match getSenderEmail r with Some e => e | None => "Unknown Sender" end
  | None => match getSenderEmail r with Some e => e | None => "Unknown Sender" end
  end.

(** The name element carries text, and all of it is white space. *)
Definition name_text_blank (r : row) : bool :=
  match querySelectorAttr "name" r with
  | Some nameElement =>
      truthy_string (textContent nameElement)
      && negb (truthy_string (trim (textContent nameElement)))
  | None => false
  end.

(** A row whose only descendant is [<span email>] and the attribute is empty. *)
Definition row_empty_email : row :=
  {| descendants := [ {| tagName := "span"; attributes := [("email", EmptyString)];
                         classList := []; textContent := EmptyString |} ] |}.

(** A row whose name element holds a single space. *)
Definition row_blank_name : row :=
  {| descendants := [ {| tagName := "span"; attributes := [("name", "News")];
                         classList := []; textContent := " " |} ] |}.

End GmailUtils.

(* ===================================================================== *)
(** * The browser services the scripts call                               *)
(* ===================================================================== *)

Module Chrome.
Import Js.

(** Values kept in extension storage and assigned to form controls. *)
#[warnings="-register-all"] Inductive jsval :=
| JUndefined
| JNull
| JBool (b : bool)
| JNum (n : Z)
| JStr (s : string)
| JObj (fields : list (string * jsval)).

(** [ToString], on the values above.  A number is written in plain
    decimal notation, as JavaScript writes it below 10^21; from there on
    JavaScript switches to exponent notation, which is not followed
    here. *)
Definition to_string (v : jsval) : string :=
  match v with
  | JUndefined => "undefined"
  | JNull => "null"
  | JBool true => "true"
  | JBool false => "false"
  | JNum n => pretty n
  | JStr s => s
  | JObj _ => "[object Object]"
  end.

(** [ToBoolean]. *)
Definition to_boolean (v : jsval) : bool :=
  match v with
  | JUndefined | JNull => false
  | JBool b => b
  | JNum n => negb (n =? 0)
  | JStr s => truthy_string s
  | JObj _ => true
  end.

(** [chrome.storage.sync.get(defaults, cb)]: the object handed to [cb] has
    the keys of [defaults], each with the stored value when there is one
    and the default otherwise. *)
Definition storage_get (defaults stored : gmap string jsval) : gmap string jsval :=
  map_imap (fun k d => Some (default d (stored !! k))) defaults.

(** [chrome.storage.sync.set(items, cb)]: every key of [items] is
    overwritten, the other keys stay. *)
Definition storage_set (items stored : gmap string jsval) : gmap string jsval :=
  items ∪ stored.

(** Reading a property of an object: [undefined] when absent. *)
Definition prop (o : gmap string jsval) (k : string) : jsval :=
  default JUndefined (o !! k).

(** Messages sent with [chrome.runtime.sendMessage], tagged by [type]. *)
Inductive runtime_message :=
| ProcessAction (senderEmail action : string)
| ExtensionInitialized
| ReloadExtension.

End Chrome.

(* ===================================================================== *)
(** * popup.js                                                            *)
(* ===================================================================== *)

Module Popup.
Import Js Chrome.

Definition DEFAULT_SETTINGS : gmap string jsval :=
  <["defaultAction" := JStr "both"]>
  (<["maxEmails" := JNum 100]>
  (<["showConfirmation" := JBool true]>
  (<["theme" := JStr "light"]> ∅))).

(** The [<select>] behind [actionTypeSelect]: its option values and the
    value it reads back. *)
Record select_element := mkSelect {
  options : list string;
  select_value : string
}.

(** The form controls of the popup and the status lines appended under
    the save button.  popup.html is not part of the sources: the number
    field is taken as a plain text control. *)
Record popup_form := mkForm {
  actionTypeSelect : select_element;
  maxEmailsInput_value : string;
  showConfirmationCheckbox_checked : bool;
  status_lines : nat
}.

(** [select.value = v]: the first option with that value gets selected;
    with no such option nothing is selected and the value reads empty. *)
Definition set_select_value (sel : select_element) (v : jsval) : select_element :=
  if existsb (String.eqb (to_string v)) (options sel)
  then {| options := options sel; select_value := to_string v |}
  else {| options := options sel; select_value := EmptyString |}.

(** [input.value = v]: [null] becomes the empty string. *)
Definition input_value_of (v : jsval) : string :=
  match v with JNull => EmptyString | _ => to_string v end.

Inductive popup_effect :=
| SetTimeoutRemoveStatus (delay : Z)
| TabsCreate (url : string)
| OpenOptionsPage.

Record popup_state := mkPopup {
  storage : gmap string jsval;
  form : popup_form;
  effects : list popup_effect
}.

(** The callback of [loadSettings]: three controls are filled in. *)
Definition loadSettings_callback (settings : gmap string jsval) (f : popup_form)
  : popup_form :=
  {| actionTypeSelect := set_select_value (actionTypeSelect f) (prop settings "defaultAction");
     maxEmailsInput_value := input_value_of (prop settings "maxEmails");
     showConfirmationCheckbox_checked := to_boolean (prop settings "showConfirmation");
     status_lines := status_lines f |}.

(** [loadSettings]. *)
Definition loadSettings (st : popup_state) : popup_state :=
  {| storage := storage st;
     form := loadSettings_callback (storage_get DEFAULT_SETTINGS (storage st)) (form st);
     effects := effects st |}.

(** [parseInt(v, 10) || 100]: [NaN] and zero are falsy. *)
Definition parsed_or_100 (v : string) : Z :=
  match parseInt10 v with
  | Some n => if n =? 0 then 100 else n
  | None => 100
  end.

(** The object literal built by [saveSettings]; [now_iso] is
    [new Date().toISOString()]. *)
Definition settings_to_save (f : popup_form) (now_iso : string) : gmap string jsval :=
  <["defaultAction" := JStr (select_value (actionTypeSelect f))]>
  (<["maxEmails" := JNum (parsed_or_100 (maxEmailsInput_value f))]>
  (<["showConfirmation" := JBool (showConfirmationCheckbox_checked f)]>
  (<["lastUpdated" := JStr now_iso]> ∅))).

(** [saveSettings], with the storage callback run: the record is merged
    into storage, a status line is appended and a timer will remove it. *)
Definition saveSettings (now_iso : string) (st : popup_state) : popup_state :=
  {| storage := storage_set (settings_to_save (form st) now_iso) (storage st);
     form := {| actionTypeSelect := actionTypeSelect (form st);
               maxEmailsInput_value := maxEmailsInput_value (form st);
               showConfirmationCheckbox_checked := showConfirmationCheckbox_checked (form st);
               status_lines := S (status_lines (form st)) |};
     effects := (effects st ++ [SetTimeoutRemoveStatus 2000])%list |}.

(** The events the popup script listens to. *)
Inductive popup_event :=
| DOMContentLoaded
| ClickSave
| Keypress (key : string)
| ClickHelp
| ClickManageAccount
| RemoveStatusTimer.

Definition add_effect (e : popup_effect) (st : popup_state) : popup_state :=
  {| storage := storage st; form := form st; effects := (effects st ++ [e])%list |}.

(** The listeners registered at the bottom of the script. *)
Definition popup_step (now_iso : string) (ev : popup_event) (st : popup_state)
  : popup_state :=
  match ev with
  | DOMContentLoaded => loadSettings st
  | ClickSave => saveSettings now_iso st
  | Keypress key => if String.eqb key "Enter" then saveSettings now_iso st else st
  | ClickHelp => add_effect (TabsCreate "https://github.com/yourusername/unclut-ai#readme") st
  | ClickManageAccount => add_effect OpenOptionsPage st
  | RemoveStatusTimer =>
      {| storage := storage st;
         form := {| actionTypeSelect := actionTypeSelect (form st);
                   maxEmailsInput_value := maxEmailsInput_value (form st);
                   showConfirmationCheckbox_checked := showConfirmationCheckbox_checked (form st);
                   status_lines := Nat.pred (status_lines (form st)) |};
         effects := effects st |}
  end.

(** A popup opened on empty storage, the form showing the option
    [unsubscribe], the limit [25] and a ticked box. *)
Definition fresh_popup : popup_state :=
  {| storage := ∅;
     form := {| actionTypeSelect := {| options := ["unsubscribe"; "delete"; "both"];
                                      select_value := "unsubscribe" |};
               maxEmailsInput_value := "25";
               showConfirmationCheckbox_checked := true;
               status_lines := 0 |};
     effects := [] |}.


(** A session of the popup: the events in order, each with the clock
    reading at the time. *)
Definition popup_run (evs : list (string * popup_event)) (st : popup_state) : popup_state :=
  fold_left (fun s '(now_iso, ev) => popup_step now_iso ev s) evs st.

(** The value a [<select>] reads back is one of its options, or empty
    when nothing is selected. *)
Definition select_consistent (sel : select_element) : bool :=
  match select_value sel with
  | EmptyString => true
  | v => existsb (String.eqb v) (options sel)
  end.





End Popup.

(* ===================================================================== *)
(** * background.js                                                       *)
(* ===================================================================== *)

Module Background.
Import Js Chrome.

(** The module-level [state] object. *)
Record state := mkState {
  isAuthenticated : bool;
  currentUser : option jsval;
  lastAction : option jsval
}.

Definition initial_state : state :=
  {| isAuthenticated := false; currentUser := None; lastAction := None |}.

(** The object returned by the two stubbed actions; [count] is present
    only in the result of a deletion. *)
Record action_result := mkResult {
  success : bool;
  message : string;
  timestamp : string;
  count : option Z
}.

(** What [handleAction] resolves with: the result of one stub, or the
    object [{ unsubResult, deleteResult }]. *)
Inductive handle_result :=
| Single (r : action_result)
| Both (unsubResult deleteResult : action_result).

(** The reply passed to [sendResponse]: [{ success: true, data }] or
    [{ success: false, error }]. *)
Inductive response :=
| ResponseOk (data : handle_result)
| ResponseError (error_message : string).

Definition response_success (r : response) : bool :=
  match r with ResponseOk _ => true | ResponseError _ => false end.

(** Calls that leave the script, in program order. *)
Inductive effect :=
| ConsoleLog (msg : string)
| ConsoleError (msg : string) (err : error)
| SetTimeout (delay : Z)
| GetAuthToken
| Fetch (url : string) (authorization : string)
| SendResponse (r : response).

(** The reply of [fetch]: it rejects, or it resolves with a response whose
    [ok] flag and [json()] outcome are given. *)
Inductive fetch_reply :=
| FetchRejected (e : error)
| FetchResponse (ok : bool) (json : error + jsval).

(** What the browser answers: the clock read by [new Date().toISOString()]
    as a function of elapsed milliseconds, the token handed to the
    [getAuthToken] callback ([None] when [chrome.runtime.lastError] is
    set), and the user-info endpoint. *)
Record environment := mkEnv {
  toISOString : Z -> string;
  auth_token : option string;
  userinfo_reply : string -> fetch_reply
}.

(** Elapsed timer time, the [state] object and the calls made so far. *)
Record world := mkWorld {
  now : Z;
  st : state;
  trace : list effect
}.

Inductive settled (A : Type) :=
| Resolved (a : A)
| Rejected (e : error).
Arguments Resolved {A} a.
Arguments Rejected {A} e.

(** An [async] function body: it runs against the browser and the
    current world and settles. *)
Definition async (A : Type) : Type := environment -> world -> world * settled A.

Definition ret {A} (a : A) : async A := fun _ w => (w, Resolved a).

Definition throw {A} (e : error) : async A := fun _ w => (w, Rejected e).

Definition bind {A B} (m : async A) (k : A -> async B) : async B :=
  fun env w =>
    match m env w with
    | (w', Resolved a) => k a env w'
    | (w', Rejected e) => (w', Rejected e)
    end.

Notation "x <- m ;; k" := (bind m (fun x => k))
  (at level 100, m at next level, right associativity).
Notation "m ;; k" := (bind m (fun _ => k))
  (at level 100, right associativity).

(** [try { body } catch (error) { handler error }]. *)
Definition try_catch {A} (body : async A) (handler : error -> async A) : async A :=
  fun env w =>
    match body env w with
    | (w', Resolved a) => (w', Resolved a)
    | (w', Rejected e) => handler e env w'
    end.

Definition emit (e : effect) : async unit :=
  fun _ w => ({| now := now w; st := st w; trace := (trace w ++ [e])%list |}, Resolved tt).

(** [await new Promise(resolve => setTimeout(resolve, delay))]. *)
Definition sleep (delay : Z) : async unit :=
  fun _ w => ({| now := now w + delay; st := st w;
                 trace := (trace w ++ [SetTimeout delay])%list |}, Resolved tt).

(** [new Date().toISOString()]. *)
Definition now_iso : async string :=
  fun env w => (w, Resolved (toISOString env (now w))).

Definition get_state : async state := fun _ w => (w, Resolved (st w)).

Definition set_state (s : state) : async unit :=
  fun _ w => ({| now := now w; st := s; trace := trace w |}, Resolved tt).

(** [await Promise.all([p, q])]: both calls start at the same instant and
    share the [state] object; the join resolves when the later one has
    resolved and rejects as soon as one rejects.  The trace lists the
    calls of [p] before those of [q]. *)
Definition all2 {A B} (p : async A) (q : async B) : async (A * B) :=
  fun env w =>
    let '(w1, r1) := p env w in
    let '(w2, r2) := q env {| now := now w; st := st w1; trace := trace w1 |} in
    let at_time t := {| now := t; st := st w2; trace := trace w2 |} in
    match r1, r2 with
    | Resolved a, Resolved b => (at_time (Z.max (now w1) (now w2)), Resolved (a, b))
    | Rejected e, Resolved _ => (at_time (now w1), Rejected e)
    | Resolved _, Rejected e => (at_time (now w2), Rejected e)
    | Rejected e1, Rejected e2 =>
        if now w1 <=? now w2 then (at_time (now w1), Rejected e1)
        else (at_time (now w2), Rejected e2)
    end.

(** [processUnsubscribe]. *)
Definition processUnsubscribe (senderEmail : string) : async action_result :=
  emit (ConsoleLog ("Attempting to unsubscribe from " +:+ senderEmail)) ;;
  try_catch
    (sleep 1000 ;;
     stamp <- now_iso ;;
     ret {| success := true;
            message := "Successfully unsubscribed from " +:+ senderEmail;
            timestamp := stamp;
            count := None |})
    (fun error =>
       emit (ConsoleError "Error unsubscribing:" error) ;;
       throw (Error ("Failed to unsubscribe from " +:+ senderEmail))).

(** [processDelete]. *)
Definition processDelete (senderEmail : string) : async action_result :=
  emit (ConsoleLog ("Attempting to delete emails from " +:+ senderEmail)) ;;
  try_catch
    (sleep 1000 ;;
     stamp <- now_iso ;;
     ret {| success := true;
            message := "Successfully deleted emails from " +:+ senderEmail;
            timestamp := stamp;
            count := Some 42 |})
    (fun error =>
       emit (ConsoleError "Error deleting emails:" error) ;;
       throw (Error ("Failed to delete emails from " +:+ senderEmail))).

(** The promise around [chrome.identity.getAuthToken]. *)
Definition getAuthToken : async string :=
  emit GetAuthToken ;;
  fun env w =>
    match auth_token env with
    | Some token => (w, Resolved token)
    | None => (w, Rejected (Error "[object Object]"))
    end.

(** [fetchUserInfo]. *)
Definition fetchUserInfo (token : string) : async jsval :=
  emit (Fetch "https://www.googleapis.com/oauth2/v2/userinfo" ("Bearer " +:+ token)) ;;
  fun env w =>
    match userinfo_reply env token with
    | FetchRejected e => (w, Rejected e)
    | FetchResponse false _ => (w, Rejected (Error "Failed to fetch user info"))
    | FetchResponse true (inl e) => (w, Rejected e)
    | FetchResponse true (inr info) => (w, Resolved info)
    end.

(** [ensureAuthenticated]. *)
Definition ensureAuthenticated : async bool :=
  s <- get_state ;;
  if isAuthenticated s then ret true
  else
    try_catch
      (token <- getAuthToken ;;
       userInfo <- fetchUserInfo token ;;
       s' <- get_state ;;
       set_state {| isAuthenticated := true;
                    currentUser := Some userInfo;
                    lastAction := lastAction s' |} ;;
       ret true)
      (fun error =>
         emit (ConsoleError "Authentication failed:" error) ;;
         throw (Error "Authentication required. Please sign in to continue.")).

(** [handleAction]. *)
Definition handleAction (senderEmail action : string) : async handle_result :=
  emit (ConsoleLog ("Processing " +:+ action +:+ " for " +:+ senderEmail)) ;;
  try_catch
    (ensureAuthenticated ;;
     if String.eqb action "unsubscribe" then
       r <- processUnsubscribe senderEmail ;; ret (Single r)
     else if String.eqb action "delete" then
       r <- processDelete senderEmail ;; ret (Single r)
     else if String.eqb action "both" then
       results <- all2 (processUnsubscribe senderEmail) (processDelete senderEmail) ;;
       ret (Both (fst results) (snd results))
     else throw (Error ("Unknown action: " +:+ action)))
    (fun error =>
       emit (ConsoleError "Error processing action:" error) ;;
       throw error).

(** The [chrome.runtime.onMessage] listener, run until it has replied.
    The second component is the reply, if one is sent. *)
Definition onMessage (request : runtime_message) (env : environment) (w : world)
  : world * option response :=
  match request with
  | ProcessAction senderEmail action =>
      match handleAction senderEmail action env w with
      | (w', Resolved result) =>
          (fst (emit (SendResponse (ResponseOk result)) env w'), Some (ResponseOk result))
      | (w', Rejected error) =>
          (fst (emit (SendResponse (ResponseError (Js.message error))) env w'),
           Some (ResponseError (Js.message error)))
      end
  | _ => (w, None)
  end.

(** The [chrome.runtime.onInstalled] listener, on the storage area. *)
Definition onInstalled (stored : gmap string jsval) : gmap string jsval :=
  storage_set (<["settings" := JObj []]> ∅) stored.

(** The effects a call appended to the trace it started from. *)
Definition appended (before after : world) : list effect :=
  drop (length (trace before)) (trace after).

(** The delays of the timers armed. *)
Definition timers (effs : list effect) : list Z :=
  flat_map (fun e => match e with SetTimeout d => [d] | _ => [] end) effs.

Definition calls_out (e : effect) : bool :=
  match e with GetAuthToken | Fetch _ _ => true | _ => false end.

(** A browser in which the user is not signed in and declines to. *)
Definition signed_out : environment :=
  {| toISOString := fun _ => "2024-01-01T00:00:00.000Z";
     auth_token := None;
     userinfo_reply := fun _ => FetchRejected (Error "Failed to fetch") |}.

(** A browser that hands out a token and a profile. *)
Definition signed_in : environment :=
  {| toISOString := fun _ => "2024-01-01T00:00:00.000Z";
     auth_token := Some "token";
     userinfo_reply := fun _ => FetchResponse true (inr (JStr "user@example.com")) |}.

Definition start_world : world :=
  {| now := 0; st := initial_state; trace := [] |}.

(** The [chrome.identity.onSignInChanged] listener; [accountId] is
    whatever the browser passes as first argument. *)
Definition onSignInChanged (accountId : jsval) (s : state) : state :=
  {| isAuthenticated := to_boolean accountId;
     currentUser := if to_boolean accountId
                    then Some (JObj [("email", accountId)])
                    else None;
     lastAction := lastAction s |}.

(** Whether the browser would let an unauthenticated call through: a
    token is granted and the user-info request answers [ok] with a body
    that parses. *)
Definition grants (env : environment) : bool :=
  match auth_token env with
  | Some token =>
      match userinfo_reply env token with
      | FetchResponse true (inr _) => true
      | _ => false
      end
  | None => false
  end.

Definition known_action (action : string) : bool :=
  String.eqb action "unsubscribe" || String.eqb action "delete" || String.eqb action "both".

(** The replies passed to [sendResponse]. *)
Definition responses (effs : list effect) : list response :=
  flat_map (fun e => match e with SendResponse r => [r] | _ => [] end) effs.

Definition is_resolved {A} (r : settled A) : bool :=
  match r with Resolved _ => true | Rejected _ => false end.

End Background.

(* ===================================================================== *)
(** * actions.js                                                          *)
(* ===================================================================== *)

Module Actions.
Import Js.

Record action_result := mkResult {
  success : bool;
  message : string;
  count : option Z
}.

(** The object [unsubscribeAndDelete] returns. *)
Record combined_result := mkCombined {
  combined_success : bool;
  unsubResult : action_result;
  deleteResult : action_result
}.

(** [unsubscribe]: one console line and a canned result. *)
Definition unsubscribe (senderEmail : string) : list string * action_result :=
  (["[Actions] Unsubscribing from " +:+ senderEmail],
   {| success := true; message := "Unsubscribed from " +:+ senderEmail; count := None |}).

(** [deleteEmails]. *)
Definition deleteEmails (senderEmail : string) : list string * action_result :=
  (["[Actions] Deleting emails from " +:+ senderEmail],
   {| success := true; message := "Deleted emails from " +:+ senderEmail; count := Some 0 |}).

(** The object literal at the end of [unsubscribeAndDelete]; on booleans
    [&&] is conjunction. *)
Definition combine (u d : action_result) : combined_result :=
  {| combined_success := success u && success d; unsubResult := u; deleteResult := d |}.

(** [unsubscribeAndDelete]: the two calls are made in order, then joined. *)
Definition unsubscribeAndDelete (senderEmail : string) : list string * combined_result :=
  let '(log_u, u) := unsubscribe senderEmail in
  let '(log_d, d) := deleteEmails senderEmail in
  ((("[Actions] Unsubscribing and deleting from " +:+ senderEmail) :: log_u ++ log_d)%list,
   combine u d).

End Actions.

(* ===================================================================== *)
(** * contentScript.js                                                    *)
(* ===================================================================== *)

Module ContentScript.
Import Js.

(** What the script does to the outside, in program order. *)
Inductive effect :=
| ConsoleLog (msg : string)
| ConsoleWarn (msg : string)
| ConsoleError (msg : string) (err : option error)
| SetTimeoutInit (delay : Z)
| ObserverObserve
| ObserverDisconnect
| SetTimeoutFallback (delay : Z)
| ClearTimeout.

(** The fields of [UnclutExtension] the retry loop reads and writes. *)
Record UnclutExtension := mkExt {
  initialized : bool;
  retryCount : Z;
  maxRetries : Z
}.

(** The constructor's field initialisers. *)
Definition new_extension : UnclutExtension :=
  {| initialized := false; retryCount := 0; maxRetries := 5 |}.

(** [retryInitialization]: either bumps the counter and arms one timer,
    or gives up.  [Math.pow(2, n)] is exact on the counters that occur. *)
Definition retryInitialization (self : UnclutExtension)
  : UnclutExtension * list effect :=
  if retryCount self <? maxRetries self then
    let self' := {| initialized := initialized self;
                    retryCount := retryCount self + 1;
                    maxRetries := maxRetries self |} in
    let delay := Z.min (1000 * 2 ^ retryCount self') 30000 in
    (self',
     [ConsoleLog ("[Unclut] Retrying initialization (" +:+ pretty (retryCount self')
                  +:+ "/" +:+ pretty (maxRetries self') +:+ ")...");
      SetTimeoutInit delay])
  else
    (self, [ConsoleError "[Unclut] Max retries reached. Giving up." None]).

(** The outcome of one call of [init()], as its caller sees it; what
    [init()] prints and does on the way is left out here.  Whether an
    attempt that rejects had set the flag by then is not recorded:
    [initialized] below follows the attempts that resolve. *)
Inductive init_result :=
| InitResolved
| InitRejected (e : error).

Definition mark_initialized (self : UnclutExtension) : UnclutExtension :=
  {| initialized := true; retryCount := retryCount self; maxRetries := maxRetries self |}.

Definition armed_timer (effs : list effect) : bool :=
  existsb (fun e => match e with SetTimeoutInit _ => true | _ => false end) effs.

(** The [catch] handler of a failed attempt has just run
    [retryInitialization]; [later] lists the outcomes of the attempts the
    armed timers go on to make.  An empty list is an attempt still
    pending. *)
Fixpoint after_failure (later : list init_result) (self : UnclutExtension)
  : UnclutExtension * list effect :=
  let '(self1, effs) := retryInitialization self in
  if armed_timer effs then
    match later with
    | [] => (self1, effs)
    | InitResolved :: _ => (mark_initialized self1, effs)
    | InitRejected e :: later' =>
        let '(self2, effs2) := after_failure later' self1 in
        (self2,
         (effs ++ ConsoleError ("[Unclut] Retry " +:+ pretty (retryCount self1)
                                +:+ " failed:") (Some e) :: effs2)%list)
    end
  else (self1, effs).

(** [new UnclutExtension()]: the first [init()] and, when it rejects, the
    retry loop.  [attempts] are the outcomes of the successive [init()]
    calls. *)
Definition construct (attempts : list init_result)
  : UnclutExtension * list effect :=
  match attempts with
  | [] => (new_extension, [])
  | InitResolved :: _ => (mark_initialized new_extension, [])
  | InitRejected e :: later =>
      let '(self, effs) := after_failure later new_extension in
      (self, ConsoleError "[Unclut] Failed to initialize:" (Some e) :: effs)
  end.

(** The delays of the timers armed, in the order they were armed. *)
Fixpoint scheduled_delays (effs : list effect) : list Z :=
  match effs with
  | SetTimeoutInit d :: rest => d :: scheduled_delays rest
  | _ :: rest => scheduled_delays rest
  | [] => []
  end.

(** The delays of retries [c+1], [c+2], ..., [c+k]. *)
Definition backoff_from (c : Z) (k : nat) : list Z :=
  map (fun i => Z.min (1000 * 2 ^ (c + Z.of_nat i)) 30000) (seq 1 k).


(** *** Waiting for Gmail's container *)

(** What [isGmailReady] looks at: the host name and whether the two
    selectors match something. *)
Record page := mkPage {
  hostname : string;
  has_main_container : bool;
  has_email_list : bool
}.

Definition bool_text (b : bool) : string := if b then "true" else "false".

(** [isGmailReady], with the console lines it prints.  The selectors are
    constants, so [querySelector] does not throw and the [catch] branch
    is never entered. *)
Definition isGmailReady (p : page) : bool * list effect :=
  if negb (String.eqb (hostname p) "mail.google.com") then
    (false, [ConsoleLog "[Unclut] Not on Gmail domain"])
  else
    (has_main_container p && has_email_list p,
     [ConsoleLog ("[Unclut] Gmail check - Main: " +:+ bool_text (has_main_container p)
                  +:+ ", Email List: " +:+ bool_text (has_email_list p))]).

Inductive promise_state :=
| Pending
| Fulfilled
| RejectedWith (e : error).

(** One call of [waitForGmailContainer]: its promise, its two local
    variables ([true] when non-null), and what the browser holds for it,
    a connected observer and an armed timer. *)
Record waiter := mkWaiter {
  promise : promise_state;
  observer : bool;
  timeoutId : bool;
  observing : bool;
  timer_armed : bool;
  performed : list effect
}.

(** [resolve()]: settles a pending promise, does nothing on a settled one. *)
Definition resolve (w : waiter) : waiter :=
  {| promise := match promise w with Pending => Fulfilled | settled => settled end;
     observer := observer w; timeoutId := timeoutId w;
     observing := observing w; timer_armed := timer_armed w; performed := performed w |}.

(** The local [cleanup] closure. *)
Definition cleanup (w : waiter) : waiter :=
  let w1 :=
    if observer w then
      {| promise := promise w; observer := false; timeoutId := timeoutId w;
         observing := false; timer_armed := timer_armed w;
         performed := (performed w ++ [ObserverDisconnect])%list |}
    else w in
  if timeoutId w1 then
    {| promise := promise w1; observer := observer w1; timeoutId := false;
       observing := observing w1; timer_armed := false;
       performed := (performed w1 ++ [ClearTimeout])%list |}
  else w1.

Definition say (effs : list effect) (w : waiter) : waiter :=
  {| promise := promise w; observer := observer w; timeoutId := timeoutId w;
     observing := observing w; timer_armed := timer_armed w;
     performed := (performed w ++ effs)%list |}.

(** The executor of the promise, run on the page as it is at the call.
    The document has a body, as it does once [DOMContentLoaded] has
    fired, so that [observe] does not throw. *)
Definition waitForGmailContainer (p : page) : waiter :=
  let '(ready, lines) := isGmailReady p in
  if ready then
    {| promise := Fulfilled; observer := false; timeoutId := false;
       observing := false; timer_armed := false;
       performed := (lines ++ [ConsoleLog "[Unclut] Gmail container found immediately"])%list |}
  else
    {| promise := Pending; observer := true; timeoutId := true;
       observing := true; timer_armed := true;
       performed := (lines ++ [ConsoleLog "[Unclut] Waiting for Gmail container...";
                          ObserverObserve; SetTimeoutFallback 10000])%list |}.

(** What the browser may deliver afterwards: a batch of mutations, seen
    on the page as it then is, or the expiry of the fallback timer. *)
Inductive wait_event :=
| Mutation (p : page)
| FallbackTimeout.

(** The observer callback runs only while the observer is connected, the
    timer callback only if the timer was not cleared, and once. *)
Definition deliver (w : waiter) (ev : wait_event) : waiter :=
  match ev with
  | Mutation p =>
      if observing w then
        let '(ready, lines) := isGmailReady p in
        if ready then
          resolve (cleanup (say (lines ++
            [ConsoleLog "[Unclut] Gmail container detected via mutation observer"])%list w))
        else say lines w
      else w
  | FallbackTimeout =>
      if timer_armed w then
        let fired := {| promise := promise w; observer := observer w;
                        timeoutId := timeoutId w; observing := observing w;
                        timer_armed := false; performed := performed w |} in
        resolve (cleanup (say
          [ConsoleWarn "[Unclut] Gmail container not found after timeout, checking anyway"]
          fired))
      else w
  end.

Definition deliver_all (evs : list wait_event) (w : waiter) : waiter :=
  fold_left deliver evs w.

(** Whether an event, delivered to a waiting call, settles it. *)
Definition settles (ev : wait_event) : bool :=
  match ev with
  | Mutation p => fst (isGmailReady p)
  | FallbackTimeout => true
  end.

Definition is_fulfilled (w : waiter) : bool :=
  match promise w with Fulfilled => true | _ => false end.

(** Nothing is left behind: both variables are null, no observer is
    connected and no timer is armed. *)
Definition released (w : waiter) : bool :=
  negb (observer w) && negb (timeoutId w) && negb (observing w) && negb (timer_armed w).

(** The two shapes a call can be in: settled with nothing left behind,
    or waiting with its observer connected and its timer armed. *)
Definition settled_or_armed (w : waiter) : Prop :=
  (promise w = Fulfilled /\ observer w = false /\ timeoutId w = false /\
   observing w = false /\ timer_armed w = false) \/
  (promise w = Pending /\ observer w = true /\ timeoutId w = true /\
   observing w = true /\ timer_armed w = true).


(** *** The toast and the action handler *)

(** The [.unclut-toast] element: the message and the optional undo link
    of its [innerHTML], its background and whether it carries the class
    [visible]. *)
Record toast_element := mkToast {
  toast_message : string;
  toast_undo : bool;
  toast_background : string;
  toast_visible : bool
}.

(** The toast in the document, if it was created, [this.toastTimeout]
    (a timer identifier) and the number of timers created so far. *)
Record toast_state := mkToastState {
  toast : option toast_element;
  toastTimeout : option nat;
  timers_created : nat
}.

(** What the action handler does to the outside, in program order. *)
Inductive ui_effect :=
| UiLog (msg : string)
| UiError (msg : string) (err : error)
| AppendToast
| RenderToast (t : toast_element)
| ClearToastTimeout (id : option nat)
| SetToastTimeout (id : nat) (delay : Z)
| SendMessage (m : Chrome.runtime_message)
| HideMenu.

(** [showToast(message, showUndo, isSuccess)]. *)
Definition showToast (message : string) (showUndo isSuccess : bool) (s : toast_state)
  : toast_state * list ui_effect :=
  let rendered := {| toast_message := message;
                     toast_undo := showUndo;
                     toast_background := if isSuccess then "#202124" else "#d93025";
                     toast_visible := true |} in
  let id := S (timers_created s) in
  ({| toast := Some rendered; toastTimeout := Some id; timers_created := id |},
   ((match toast s with None => [AppendToast] | Some _ => [] end)
    ++ [RenderToast rendered; ClearToastTimeout (toastTimeout s); SetToastTimeout id 5000])%list).

(** How [chrome.runtime.sendMessage] settles: with the listener's reply
    (none when nobody replies), or with an error. *)
Inductive send_outcome :=
| SendResolved (reply : option Background.response)
| SendRejected (e : error).

(** [handleAction(senderEmail, action)] up to its [await]: the console
    line, the processing toast and the send. *)
Definition handleAction_begin (senderEmail action : string) (s : toast_state)
  : toast_state * list ui_effect :=
  let '(s1, shown) :=
    showToast ("Processing " +:+ action +:+ " for " +:+ senderEmail +:+ "...") true true s in
  (s1,
   (UiLog ("Action: " +:+ action +:+ " for " +:+ senderEmail) :: shown
    ++ [SendMessage (Chrome.ProcessAction senderEmail action)])%list).

(** The rest of [handleAction], run when the send has settled: the line
    after the [await], or the [catch] block. *)
Definition handleAction_resume (senderEmail action : string) (outcome : send_outcome)
    (s : toast_state) : toast_state * list ui_effect :=
  match outcome with
  | SendResolved _ =>
      showToast ("Successfully processed " +:+ action +:+ " for " +:+ senderEmail)
                false true s
  | SendRejected error =>
      let '(s', shown) :=
        showToast ("Failed to process " +:+ action +:+ " for " +:+ senderEmail)
                  false false s in
      (s', UiError "Error processing action:" error :: shown)
  end.

(** [handleAction(senderEmail, action)]; [outcome] is how the awaited
    send settles, [None] while it has not. *)
Definition handleAction (senderEmail action : string) (outcome : option send_outcome)
    (s : toast_state) : toast_state * list ui_effect :=
  let '(s1, started) := handleAction_begin senderEmail action s in
  match outcome with
  | None => (s1, started)
  | Some settled =>
      let '(s2, resumed) := handleAction_resume senderEmail action settled s1 in
      (s2, (started ++ resumed)%list)
  end.

(** An entry of the menu built by [injectButtons]: its label and the two
    variables its click listener closes over. *)
Record menu_button := mkButton {
  label : string;
  click_senderEmail : string;
  click_action : string
}.

(** The [.unclut-buttons-container] appended to the body. *)
Record menu := mkMenu {
  buttons : list menu_button;
  display : string
}.

(** The click listener of a menu entry: [handleAction] runs up to its
    [await], the menu is hidden, and [handleAction] resumes when the send
    has settled. *)
Definition click (b : menu_button) (m : menu) (outcome : option send_outcome)
    (s : toast_state) : menu * toast_state * list ui_effect :=
  let '(s1, started) := handleAction_begin (click_senderEmail b) (click_action b) s in
  let hidden := {| buttons := buttons m; display := "none" |} in
  match outcome with
  | None => (hidden, s1, (started ++ [HideMenu])%list)
  | Some settled =>
      let '(s2, resumed) :=
        handleAction_resume (click_senderEmail b) (click_action b) settled s1 in
      (hidden, s2, (started ++ HideMenu :: resumed)%list)
  end.

(** The [actions] array of [injectButtons]. *)
Definition actions : list (string * string) :=
  [("Unsubscribe", "unsubscribe"); ("Delete All", "delete"); ("Unsubscribe + Delete", "both")].

(** The container built for one sender. *)
Definition new_menu (senderEmail : string) : menu :=
  {| buttons := map (fun '(l, a) => {| label := l; click_senderEmail := senderEmail;
                                        click_action := a |}) actions;
     display := "none" |}.

(** The three toasts [handleAction] can leave on screen. *)
Definition processing_toast (senderEmail action : string) : toast_element :=
  {| toast_message := "Processing " +:+ action +:+ " for " +:+ senderEmail +:+ "...";
     toast_undo := true; toast_background := "#202124"; toast_visible := true |}.

Definition success_toast (senderEmail action : string) : toast_element :=
  {| toast_message := "Successfully processed " +:+ action +:+ " for " +:+ senderEmail;
     toast_undo := false; toast_background := "#202124"; toast_visible := true |}.

Definition failure_toast (senderEmail action : string) : toast_element :=
  {| toast_message := "Failed to process " +:+ action +:+ " for " +:+ senderEmail;
     toast_undo := false; toast_background := "#d93025"; toast_visible := true |}.

Definition sent_messages (effs : list ui_effect) : list Chrome.runtime_message :=
  flat_map (fun e => match e with SendMessage m => [m] | _ => [] end) effs.

Definition rendered_toasts (effs : list ui_effect) : list toast_element :=
  flat_map (fun e => match e with RenderToast t => [t] | _ => [] end) effs.

Definition logged_errors (effs : list ui_effect) : list error :=
  flat_map (fun e => match e with UiError _ err => [err] | _ => [] end) effs.


(** *** Button injection *)

(** A table cell of a message row with its child elements, and a message
    row with its cells.  Rows are taken as disjoint subtrees, and the
    elements a selector can reach as children of the cells. *)
Record cell := mkCell {
  cell_attributes : list (string * string);
  children : list Dom.element
}.

Record email_row := mkEmailRow {
  row_attributes : list (string * string);
  row_classList : list string;
  cells : list cell
}.

(** The document: its message rows in document order and the menus
    appended to the body. *)
Record document := mkDocument {
  rows : list email_row;
  body_menus : list menu
}.

(** The selector [tr[role="row"]:not(.unclut-processed)]. *)
Definition selected (r : email_row) : bool :=
  match Dom.lookup_attribute "role" (row_attributes r) with
  | Some role => String.eqb role "row"
  | None => false
  end
  && negb (Dom.has_class "unclut-processed" (row_classList r)).

(** An element matched by [span[email]]. *)
Definition is_sender_span (el : Dom.element) : bool :=
  String.eqb (Dom.tagName el) "span" && Dom.hasAttribute "email" el.

(** A cell matched by [td[data-thread-id]]. *)
Definition is_thread_cell (c : cell) : bool :=
  match Dom.lookup_attribute "data-thread-id" (cell_attributes c) with
  | Some _ => true
  | None => false
  end.

(** [row.querySelector('td[data-thread-id] span[email]')]: the first
    match in document order. *)
Fixpoint find_sender_cell (cs : list cell) : option Dom.element :=
  match cs with
  | c :: rest =>
      match (if is_thread_cell c then find is_sender_span (children c) else None) with
      | Some el => Some el
      | None => find_sender_cell rest
      end
  | [] => None
  end.

(** The trigger [div]; its [innerHTML] is the three code units 226, 184,
    184 of the source text. *)
Definition trigger : Dom.element :=
  {| Dom.tagName := "div";
     Dom.attributes := [("title", "unclut.ai - Clean up emails")];
     Dom.classList := ["unclut-button"];
     Dom.textContent :=
       String (ascii_of_nat 226) (String (ascii_of_nat 184)
         (String (ascii_of_nat 184) EmptyString)) |}.

(** [parent.insertBefore(trigger, senderCell.nextSibling)] among the
    children of the cell that holds the sender element. *)
Fixpoint insert_after_sender (els : list Dom.element) : list Dom.element :=
  match els with
  | el :: rest =>
      if is_sender_span el then el :: trigger :: rest
      else el :: insert_after_sender rest
  | [] => []
  end.

Fixpoint insert_trigger (cs : list cell) : list cell :=
  match cs with
  | c :: rest =>
      if is_thread_cell c && existsb is_sender_span (children c)
      then {| cell_attributes := cell_attributes c;
              children := insert_after_sender (children c) |} :: rest
      else c :: insert_trigger rest
  | [] => []
  end.

(** The body of the [forEach] callback on one row: the row afterwards
    and the menu appended to the body, if any. *)
Definition process_row (r : email_row) : email_row * option menu :=
  if Dom.has_class "unclut-processed" (row_classList r) then (r, None)
  else
    match find_sender_cell (cells r) with
    | None => (r, None)
    | Some senderCell =>
        match Dom.getAttribute "email" senderCell with
        | None => (r, None)
        | Some senderEmail =>
            if truthy_string senderEmail then
              ({| row_attributes := row_attributes r;
                  row_classList := (row_classList r ++ ["unclut-processed"])%list;
                  cells := insert_trigger (cells r) |},
               Some (new_menu senderEmail))
            else (r, None)
        end
    end.

(** [injectButtons]: the callback runs on the rows the selector matched
    when the call started and passes over the others; each run touches
    its own row and the end of the body only. *)
Definition visit_row (r : email_row) : email_row * option menu :=
  if selected r then process_row r else (r, None).

Definition injectButtons (d : document) : document :=
  let results := map visit_row (rows d) in
  {| rows := map fst results;
     body_menus := (body_menus d ++ omap snd results)%list |}.

(** The [.unclut-button] elements inside a row. *)
Definition is_trigger (el : Dom.element) : bool :=
  Dom.has_class "unclut-button" (Dom.classList el).

Definition triggers_in (els : list Dom.element) : nat :=
  length (List.filter is_trigger els).

Definition count_triggers (r : email_row) : nat :=
  list_sum (map (fun c => triggers_in (children c)) (cells r)).

Definition is_processed (r : email_row) : bool :=
  Dom.has_class "unclut-processed" (row_classList r).

(** The sender a selected row is augmented for, if it is. *)
Definition augmented_for (r : email_row) : option string :=
  if selected r then
    match find_sender_cell (cells r) with
    | Some senderCell =>
        match Dom.getAttribute "email" senderCell with
        | Some senderEmail => if truthy_string senderEmail then Some senderEmail else None
        | None => None
        end
    | None => None
    end
  else None.

(** An inbox of three rows: a fresh one, one already processed, and one
    without a sender element. *)
Definition sample_document : document :=
  let sender := {| Dom.tagName := "span"; Dom.attributes := [("email", "news@example.com")];
                   Dom.classList := []; Dom.textContent := "News" |} in
  let subject := {| Dom.tagName := "span"; Dom.attributes := [];
                    Dom.classList := []; Dom.textContent := "Hello" |} in
  let thread_cell els := {| cell_attributes := [("data-thread-id", "t1")]; children := els |} in
  {| rows := [ {| row_attributes := [("role", "row")]; row_classList := [];
                  cells := [thread_cell [sender; subject]] |};
               {| row_attributes := [("role", "row")]; row_classList := ["unclut-processed"];
                  cells := [thread_cell [sender; trigger; subject]] |};
               {| row_attributes := [("role", "row")]; row_classList := [];
                  cells := [thread_cell [subject]] |} ];
     body_menus := [new_menu "news@example.com"] |}.


(** *** The rest of the instance *)

(** The time spent waiting on retry timers, in milliseconds. *)
Definition total_delay (effs : list effect) : Z :=
  fold_right Z.add 0 (scheduled_delays effs).

(** How often an effect of a given kind occurs. *)
Definition occurrences (kind : effect -> bool) (effs : list effect) : nat :=
  length (List.filter kind effs).

Definition is_observe (e : effect) : bool :=
  match e with ObserverObserve => true | _ => false end.
Definition is_disconnect (e : effect) : bool :=
  match e with ObserverDisconnect => true | _ => false end.
Definition is_arm_fallback (e : effect) : bool :=
  match e with SetTimeoutFallback _ => true | _ => false end.
Definition is_clear (e : effect) : bool :=
  match e with ClearTimeout => true | _ => false end.

(** [document.querySelectorAll('.unclut-button').forEach(btn => btn.remove())]. *)
Definition remove_triggers (r : email_row) : email_row :=
  {| row_attributes := row_attributes r;
     row_classList := row_classList r;
     cells := map (fun c => {| cell_attributes := cell_attributes c;
                               children := List.filter (fun el => negb (is_trigger el))
                                                       (children c) |})
                  (cells r) |}.

Definition remove_all_triggers (d : document) : document :=
  {| rows := map remove_triggers (rows d); body_menus := body_menus d |}.

(** The fields of the instance that the method [cleanup] resets. *)
Record instance_fields := mkFields {
  this_observer : bool;
  this_toastTimeout : option nat;
  this_initialized : bool
}.

(** The method [cleanup()] of [UnclutExtension]. *)
Definition cleanup_instance (self : instance_fields) (d : document)
  : instance_fields * document * list effect :=
  ({| this_observer := false; this_toastTimeout := None; this_initialized := false |},
   remove_all_triggers d,
   ((if this_observer self then [ObserverDisconnect] else [])
    ++ (match this_toastTimeout self with Some _ => [ClearTimeout] | None => [] end)
    ++ [ConsoleLog "[Unclut] Cleaned up resources"])%list).

(** The instance's mutation observer: the throttle flag, the number of
    throttle timers armed and not yet fired, the document, and how often
    [injectButtons] has run. *)
Record observer_state := mkObserverState {
  processingMutations : bool;
  throttle_timers : nat;
  shown : document;
  injections : nat
}.

(** [shouldProcessMutations]; the timer it arms, of 100 ms, clears the
    flag. *)
Definition shouldProcessMutations (o : observer_state) : bool * observer_state :=
  if processingMutations o then (false, o)
  else (true, {| processingMutations := true;
                 throttle_timers := S (throttle_timers o);
                 shown := shown o;
                 injections := injections o |}).

(** [setupMutationObserver], on the document as it is: the observer is
    connected and [injectButtons] runs once, past the throttle. *)
Definition setupMutationObserver (d : document) : observer_state :=
  {| processingMutations := false; throttle_timers := 0;
     shown := injectButtons d; injections := 1 |}.

(** What the observer is told afterwards: a batch of mutations, with the
    document as the page left it, or the expiry of a throttle timer. *)
Inductive observer_event :=
| MutationBatch (d : document)
| ThrottleTimer.

Definition observer_step (o : observer_state) (ev : observer_event) : observer_state :=
  match ev with
  | MutationBatch d =>
      let '(go, o') := shouldProcessMutations
                         {| processingMutations := processingMutations o;
                            throttle_timers := throttle_timers o;
                            shown := d; injections := injections o |} in
      if go then {| processingMutations := processingMutations o';
                    throttle_timers := throttle_timers o';
                    shown := injectButtons (shown o');
                    injections := S (injections o') |}
      else o'
  | ThrottleTimer =>
      match throttle_timers o with
      | S n => {| processingMutations := false; throttle_timers := n;
                  shown := shown o; injections := injections o |}
      | O => o
      end
  end.

Definition observer_run (evs : list observer_event) (o : observer_state) : observer_state :=
  fold_left observer_step evs o.

Definition is_throttle_timer (ev : observer_event) : bool :=
  match ev with ThrottleTimer => true | MutationBatch _ => false end.

(** The click listener of the trigger of the [i]-th menu, as far as the
    [display] of the menus goes: every other menu is hidden, its own is
    shown if it was hidden and hidden if it was shown.  Where the menu is
    placed and the listener that closes it on a click elsewhere are left
    out. *)
Definition hide (m : menu) : menu := {| buttons := buttons m; display := "none" |}.

Definition toggle (m : menu) : menu :=
  {| buttons := buttons m;
     display := if String.eqb (display m) "block" then "none" else "block" |}.

Fixpoint click_trigger (i : nat) (menus : list menu) : list menu :=
  match menus, i with
  | m :: rest, O => toggle m :: map hide rest
  | m :: rest, S k => hide m :: click_trigger k rest
  | [], _ => []
  end.

Definition is_open (m : menu) : bool := String.eqb (display m) "block".

Definition open_menus (menus : list menu) : nat := length (List.filter is_open menus).

(** [handleUrlChange] of [setupSPANavigation]: the last address seen and
    the number of times [initializeExtension] was called. *)
Record navigation := mkNavigation {
  lastUrl : string;
  reinitializations : nat
}.

Definition handleUrlChange (href : string) (n : navigation) : navigation :=
  if negb (String.eqb href (lastUrl n))
  then {| lastUrl := href; reinitializations := S (reinitializations n) |}
  else n.

(** The addresses in the location bar at the successive calls. *)
Definition navigate (hrefs : list string) (n : navigation) : navigation :=
  fold_left (fun n href => handleUrlChange href n) hrefs n.

(** The number of places where an address differs from the one before. *)
Fixpoint address_changes (previous : string) (hrefs : list string) : nat :=
  match hrefs with
  | href :: rest =>
      (if String.eqb href previous then 0 else 1)%nat + address_changes href rest
  | [] => 0%nat
  end.

(** Successive calls of [showToast]. *)
Definition toast_call : Type := string * bool * bool.

Fixpoint show_toasts (calls : list toast_call) (s : toast_state)
  : toast_state * list ui_effect :=
  match calls with
  | (message, showUndo, isSuccess) :: rest =>
      let '(s1, effs1) := showToast message showUndo isSuccess s in
      let '(s2, effs2) := show_toasts rest s1 in
      (s2, (effs1 ++ effs2)%list)
  | [] => (s, [])
  end.

(** The hide timers armed and not cleared since. *)
Fixpoint live_toast_timers (effs : list ui_effect) (live : list nat) : list nat :=
  match effs with
  | SetToastTimeout id _ :: rest => live_toast_timers rest (live ++ [id])%list
  | ClearToastTimeout (Some id) :: rest =>
      live_toast_timers rest (List.filter (fun j => negb (Nat.eqb j id)) live)
  | _ :: rest => live_toast_timers rest live
  | [] => live
  end.

Definition toasts_appended (effs : list ui_effect) : nat :=
  length (List.filter (fun e => match e with AppendToast => true | _ => false end) effs).

Definition no_toast : toast_state :=
  {| toast := None; toastTimeout := None; timers_created := 0 |}.

(** The detector's books: what was connected and armed, and what was
    disconnected and cleared since. *)
Definition books (started released_now : nat) (w : waiter) : Prop :=
  occurrences is_observe (performed w) = started /\
  occurrences is_arm_fallback (performed w) = started /\
  occurrences is_disconnect (performed w) = released_now /\
  occurrences is_clear (performed w) = released_now.

Definition balanced (ready : bool) (w : waiter) : Prop :=
  (promise w = Fulfilled /\ observer w = false /\ timeoutId w = false /\
   observing w = false /\ timer_armed w = false /\
   books (if ready then 0 else 1) (if ready then 0 else 1) w) \/
  (promise w = Pending /\ observer w = true /\ timeoutId w = true /\
   observing w = true /\ timer_armed w = true /\ ready = false /\ books 1 0 w).

(** A timer identifier, or none, as the list of pending timers. *)
Definition as_list (o : option nat) : list nat :=
  match o with Some id => [id] | None => [] end.


(** [injectStyles], on the number of elements with the identifier
    [unclut-extension-styles]: one is appended when there is none. *)
Definition injectStyles (style_elements : nat) : nat :=
  match style_elements with
  | O => 1%nat
  | n => n
  end.

(** What [init()] works on: the flag, the instance's observer once it is
    set up, the style elements and the document. *)
Record init_state := mkInitState {
  is_initialized : bool;
  instance_observer : option observer_state;
  style_elements : nat;
  page_document : document
}.

Inductive init_effect :=
| InitLog (msg : string)
| InitWaiting (e : effect)
| InitSend (m : Chrome.runtime_message).

(** Whether a run of [injectButtons] changes the document: it does
    exactly when it augments a row, inserting a trigger into the row and
    appending a menu to the body. *)
Definition augments (d : document) : bool :=
  existsb (fun r => match augmented_for r with Some _ => true | None => false end) (rows d).

(** [init()].  [p] and [evs] are the page at the call and what the
    readiness detector is delivered; while its promise is pending,
    [init()] has not gone past its first [await].  After the wait,
    [setupMutationObserver] connects the instance's observer and injects
    once, [injectStyles] adds the style element to the head, which the
    observer does not watch, and [injectButtons] runs again.  At
    [await this.injectButtons()] the observer's callback runs first if
    the first injection changed the body: it passes the throttle, arms
    its timer and injects a third time.  Then the flag is set and the
    background script is told. *)
Definition init (s : init_state) (p : page) (evs : list wait_event)
  : init_state * list init_effect :=
  if is_initialized s then (s, [InitLog "[Unclut] Extension already initialized"])
  else
    let w := deliver_all evs (waitForGmailContainer p) in
    let waited := InitLog "[Unclut] Starting initialization..."
                  :: map InitWaiting (performed w) in
    if is_fulfilled w then
      let o1 := setupMutationObserver (page_document s) in
      let o2 := {| processingMutations := processingMutations o1;
                   throttle_timers := throttle_timers o1;
                   shown := injectButtons (shown o1);
                   injections := S (injections o1) |} in
      let o3 := if augments (page_document s)
                then observer_step o2 (MutationBatch (shown o2))
                else o2 in
      ({| is_initialized := true;
          instance_observer := Some o3;
          style_elements := injectStyles (style_elements s);
          page_document := shown o3 |},
       (waited ++ [InitLog "[Unclut] Extension initialized successfully";
                   InitSend Chrome.ExtensionInitialized])%list)
    else (s, waited).

Definition init_sends (effs : list init_effect) : list Chrome.runtime_message :=
  flat_map (fun e => match e with InitSend m => [m] | _ => [] end) effs.

(** The children of a row's cells without the trigger buttons. *)
Definition content_of (r : email_row) : list (list Dom.element) :=
  map (fun c => List.filter (fun el => negb (is_trigger el)) (children c)) (cells r).

End ContentScript.

(* ===================================================================== *)
(** * Properties                                                          *)
(* ===================================================================== *)

(** ** The retry loop of the content script *)

Section RetryLoop.
Import ContentScript.

Lemma backoff_from_S c k :
  backoff_from c (S k) = Z.min (1000 * 2 ^ (c + 1)) 30000 :: backoff_from (c + 1) k.
Proof.
  unfold backoff_from. cbn [seq map]. f_equal.
  rewrite <- seq_shift, map_map. apply map_ext. intros i.
  do 3 f_equal. lia.
Qed.

Lemma retryInitialization_armed self :
  armed_timer (snd (retryInitialization self)) = (retryCount self <? maxRetries self).
Proof.
  unfold retryInitialization. destruct (retryCount self <? maxRetries self); reflexivity.
Qed.

Lemma after_failure_delays later :
  forall self, maxRetries self = 5 ->
    exists k, Z.of_nat k <= Z.max 0 (5 - retryCount self) /\
      scheduled_delays (snd (after_failure later self)) = backoff_from (retryCount self) k /\
      maxRetries (fst (after_failure later self)) = 5.
Proof.
  induction later as [|a later IH]; intros self Hmax.
  - cbn [after_failure]. unfold retryInitialization. rewrite Hmax.
    destruct (retryCount self <? 5) eqn:Hlt.
    + exists 1%nat. cbn. apply Z.ltb_lt in Hlt. repeat split; first [lia | assumption | reflexivity].
    + exists 0%nat. cbn. repeat split; first [lia | assumption | reflexivity].
  - cbn [after_failure]. unfold retryInitialization. rewrite Hmax.
    destruct (retryCount self <? 5) eqn:Hlt.
    + apply Z.ltb_lt in Hlt. cbn [armed_timer existsb orb].
      destruct a as [|e].
      * exists 1%nat. cbn. repeat split; first [lia | assumption | reflexivity].
      * set (self1 := {| initialized := initialized self;
                         retryCount := retryCount self + 1; maxRetries := 5 |}).
        destruct (IH self1 eq_refl) as (k & Hk & Hd & Hm).
        destruct (after_failure later self1) as [self2 effs2].
        exists (S k). cbn [snd fst] in *. repeat split.
        -- subst self1; cbn in Hk. lia.
        -- rewrite backoff_from_S. cbn [app scheduled_delays retryCount]. rewrite Hd. reflexivity.
        -- exact Hm.
    + exists 0%nat. cbn. repeat split; first [lia | assumption | reflexivity].
Qed.

(** C1.  Whatever the outcomes of the successive [init()] calls of one
    extension instance: a call of [retryInitialization] arms a timer
    exactly when the retry count is below the ceiling, which is 5; the
    timers armed are at most 5 and the one of retry number [n] (counting
    from 1) waits [min (1000 * 2^n) 30000] milliseconds; and once the
    first attempt and five retries have failed the delays are
    2, 4, 8, 16 and 30 seconds, the count stands at 5 and no timer is
    armed any more, whatever comes after. *)
Theorem retry_bounded_backoff (attempts : list init_result) :
  (forall self,
      armed_timer (snd (retryInitialization self))
      = (retryCount self <? maxRetries self)) /\
  maxRetries (fst (construct attempts)) = 5 /\
  (exists k, (k <= 5)%nat /\
     scheduled_delays (snd (construct attempts))
     = map (fun n => Z.min (1000 * 2 ^ Z.of_nat n) 30000) (seq 1 k)) /\
  (forall e0 e1 e2 e3 e4 e5 more,
      let run := construct (InitRejected e0 :: InitRejected e1 :: InitRejected e2 ::
                            InitRejected e3 :: InitRejected e4 :: InitRejected e5 :: more) in
      scheduled_delays (snd run) = [2000; 4000; 8000; 16000; 30000] /\
      retryCount (fst run) = 5 /\
      armed_timer (snd (retryInitialization (fst run))) = false).
Proof.
  split; [exact retryInitialization_armed|].
  assert (Hgen : maxRetries (fst (construct attempts)) = 5 /\
     exists k, (k <= 5)%nat /\
     scheduled_delays (snd (construct attempts)) = backoff_from 0 k).
  { destruct attempts as [|[|e] later]; cbn [construct].
    - split; [reflexivity|]. exists 0%nat. split; [lia|reflexivity].
    - split; [reflexivity|]. exists 0%nat. split; [lia|reflexivity].
    - destruct (after_failure_delays later new_extension eq_refl) as (k & Hk & Hd & Hm).
      destruct (after_failure later new_extension) as [self effs].
      cbn [fst snd] in *. split; [exact Hm|].
      change (retryCount new_extension) with 0 in Hk, Hd.
      exists k. split; [lia|]. cbn [scheduled_delays]. exact Hd. }
  destruct Hgen as [Hm (k & Hk & Hd)].
  split; [exact Hm|]. split.
  - exists k. split; [exact Hk|]. rewrite Hd. reflexivity.
  - intros e0 e1 e2 e3 e4 e5 more run. subst run.
    destruct more as [|[|e6] more]; vm_compute; repeat split; reflexivity.
Qed.

End RetryLoop.

(** ** The sender's display name *)

Section DisplayName.
Import Js Dom GmailUtils.

Lemma or_else_nonempty x fallback :
  fallback <> EmptyString -> or_else x fallback <> EmptyString.
Proof.
  intros Hf. unfold or_else. destruct x as [s|]; [|exact Hf].
  destruct s; cbn; [exact Hf | discriminate].
Qed.

Lemma truthy_nonempty s : truthy_string s = true -> s <> EmptyString.
Proof. destruct s; cbn; [discriminate | discriminate]. Qed.

(** C10, against the claim as worded: on a row whose sender element has
    an empty [email] attribute, [getSenderEmail] is the non-null empty
    string, yet the display name is not that email but the constant. *)
Lemma display_name_not_the_nonnull_email :
  getSenderEmail row_empty_email = Some EmptyString /\
  display_name_as_specified row_empty_email = EmptyString /\
  getSenderDisplayName row_empty_email = "Unknown Sender" /\
  getSenderDisplayName row_empty_email <> display_name_as_specified row_empty_email.
Proof. repeat split; try reflexivity. discriminate. Qed.

(** What the function does on a name element whose text is one space:
    the text passes the truthiness test and is trimmed to nothing. *)
Example display_name_blank_text :
  name_text_blank row_blank_name = true /\
  getSenderEmail row_blank_name = Some "News" /\
  getSenderDisplayName row_blank_name = EmptyString.
Proof. repeat split; reflexivity. Qed.

(** C10, amended.  On every row whose name element does not hold
    white-space-only text, the display name is never empty: it is the
    trimmed text of the name element when that element is present with
    non-empty text, otherwise the sender email when [getSenderEmail] is
    neither null nor empty, otherwise ['Unknown Sender']. *)
Theorem display_name_fallback (r : row) :
  name_text_blank r = false ->
  getSenderDisplayName r <> EmptyString /\
  getSenderDisplayName r =
    match querySelectorAttr "name" r with
    | Some nameElement =>
        if truthy_string (textContent nameElement)
        then trim (textContent nameElement)
        else match getSenderEmail r with
             | Some (String c e) => String c e
             | _ => "Unknown Sender"
             end
    | None => match getSenderEmail r with
              | Some (String c e) => String c e
              | _ => "Unknown Sender"
              end
    end.
Proof.
  unfold name_text_blank, getSenderDisplayName. intros Hblank.
  assert (Hor : forall x, or_else x "Unknown Sender"
            = match x with Some (String c e) => String c e | _ => "Unknown Sender" end).
  { intros [[|c e]|]; reflexivity. }
  destruct (querySelectorAttr "name" r) as [nameElement|].
  - destruct (truthy_string (textContent nameElement)) eqn:Htext.
    + cbn in Hblank. apply negb_false_iff in Hblank.
      split; [apply truthy_nonempty; exact Hblank | reflexivity].
    + split; [apply or_else_nonempty; discriminate | apply Hor].
  - split; [apply or_else_nonempty; discriminate | apply Hor].
Qed.

(** The amended statement at a row with a padded name. *)
Lemma display_name_fallback_witness :
  getSenderDisplayName
    {| descendants := [ {| tagName := "span"; attributes := [("name", "n1")];
                           classList := []; textContent := "  Weekly Digest " |} ] |}
  = "Weekly Digest".
Proof.
  pose proof (display_name_fallback
    {| descendants := [ {| tagName := "span"; attributes := [("name", "n1")];
                           classList := []; textContent := "  Weekly Digest " |} ] |}
    eq_refl) as [_ H].
  rewrite H. reflexivity.
Defined.

End DisplayName.

(** ** The settings record of the popup *)

Section Settings.
Import Js Chrome Popup.

Lemma storage_get_lookup (defaults stored : gmap string jsval) (k : string) :
  storage_get defaults stored !! k
  = (fun d => default d (stored !! k)) <$> (defaults !! k).
Proof.
  unfold storage_get. rewrite map_lookup_imap.
  destruct (defaults !! k); reflexivity.
Qed.

Lemma storage_get_dom (defaults stored : gmap string jsval) :
  dom (storage_get defaults stored) = dom defaults.
Proof.
  apply set_eq. intros k. rewrite !elem_of_dom, storage_get_lookup.
  destruct (defaults !! k); cbn; split; intros [x Hx]; eauto; discriminate.
Qed.

Lemma DEFAULT_SETTINGS_dom :
  dom DEFAULT_SETTINGS
  = ({["defaultAction"; "maxEmails"; "showConfirmation"; "theme"]} : gset string).
Proof.
  unfold DEFAULT_SETTINGS. rewrite !dom_insert_L, dom_empty_L. set_solver.
Qed.

Lemma settings_to_save_dom (f : popup_form) (now_iso : string) :
  dom (settings_to_save f now_iso)
  = ({["defaultAction"; "maxEmails"; "showConfirmation"; "lastUpdated"]} : gset string).
Proof.
  unfold settings_to_save. rewrite !dom_insert_L, dom_empty_L. set_solver.
Qed.

(** C6.  Whatever is stored, the object [loadSettings] receives holds,
    under each of the four keys of [DEFAULT_SETTINGS], the stored value
    when there is one and otherwise the default (['both'], [100], [true],
    ['light']), and it is this object that fills the form; and
    [saveSettings] stores [100] under [maxEmails] whenever the text of
    the input does not parse to a non-zero integer. *)
Theorem settings_default_fallback
    (stored : gmap string jsval) (st : popup_state) (now_iso : string) :
  (let settings := storage_get DEFAULT_SETTINGS stored in
   settings !! "defaultAction" = Some (default (JStr "both") (stored !! "defaultAction")) /\
   settings !! "maxEmails" = Some (default (JNum 100) (stored !! "maxEmails")) /\
   settings !! "showConfirmation" = Some (default (JBool true) (stored !! "showConfirmation")) /\
   settings !! "theme" = Some (default (JStr "light") (stored !! "theme")) /\
   dom settings = {["defaultAction"; "maxEmails"; "showConfirmation"; "theme"]}) /\
  form (loadSettings st)
  = loadSettings_callback (storage_get DEFAULT_SETTINGS (storage st)) (form st) /\
  ((forall n, parseInt10 (maxEmailsInput_value (form st)) = Some n -> n = 0) ->
   storage (saveSettings now_iso st) !! "maxEmails" = Some (JNum 100)).
Proof.
  split; [|split].
  - cbn zeta. rewrite !storage_get_lookup, storage_get_dom, DEFAULT_SETTINGS_dom.
    repeat split; reflexivity.
  - reflexivity.
  - intros Hparse. cbn [saveSettings storage]. unfold storage_set.
    apply lookup_union_Some_l. unfold settings_to_save.
    rewrite lookup_insert_ne by discriminate. rewrite lookup_insert_eq.
    unfold parsed_or_100.
    destruct (parseInt10 (maxEmailsInput_value (form st))) as [n|]; [|reflexivity].
    rewrite (Hparse n eq_refl). reflexivity.
Qed.

(** C6 on a popup whose limit field reads [0]. *)
Lemma settings_default_fallback_witness :
  storage (saveSettings "2024-01-01T00:00:00.000Z"
             {| storage := storage fresh_popup;
                form := {| actionTypeSelect := actionTypeSelect (form fresh_popup);
                           maxEmailsInput_value := "0";
                           showConfirmationCheckbox_checked := true;
                           status_lines := 0 |};
                effects := [] |}) !! "maxEmails" = Some (JNum 100).
Proof.
  apply (settings_default_fallback ∅).
  cbn. intros n Hn. injection Hn as <-. reflexivity.
Defined.

End Settings.

Section SettingsLifecycle.
Import Js Chrome Popup.

(** C3, against the claim as worded: a click on the save button of a
    popup opened on empty storage leaves a record with the key
    [lastUpdated] and without the key [theme], so its fields are not the
    four of the claim; and pressing Enter writes the record as well. *)
Lemma saved_record_fields_differ :
  dom (storage (popup_step "2024-01-01T00:00:00.000Z" ClickSave fresh_popup))
  <> ({["defaultAction"; "maxEmails"; "showConfirmation"; "theme"]} : gset string) /\
  storage (popup_step "2024-01-01T00:00:00.000Z" (Keypress "Enter") fresh_popup)
  <> storage fresh_popup.
Proof.
  split.
  - intros Heq.
    assert (Hin : "lastUpdated" ∈
      dom (storage (popup_step "2024-01-01T00:00:00.000Z" ClickSave fresh_popup))).
    { apply elem_of_dom. eexists. vm_compute. reflexivity. }
    rewrite Heq in Hin. set_solver.
  - intros Heq.
    assert (Hl : storage (popup_step "2024-01-01T00:00:00.000Z" (Keypress "Enter") fresh_popup)
                   !! "lastUpdated" = Some (JStr "2024-01-01T00:00:00.000Z"))
      by (vm_compute; reflexivity).
    rewrite Heq in Hl. discriminate.
Qed.

(** C3, amended.  [loadSettings] asks storage for one flat record with
    exactly the keys [defaultAction], [maxEmails], [showConfirmation] and
    [theme] and leaves storage as it is; [saveSettings] writes, in one
    call, a flat record with exactly the keys [defaultAction],
    [maxEmails], [showConfirmation] and [lastUpdated], so the stored
    [theme] is never written; of the popup's events only
    [DOMContentLoaded] reads the record into the form, and only a click
    on the save button or an Enter key press writes it; the background
    script's install listener writes the separate key [settings] only. *)
Theorem settings_record_lifecycle
    (now_iso : string) (ev : popup_event) (st : popup_state) :
  dom (storage_get DEFAULT_SETTINGS (storage st))
  = ({["defaultAction"; "maxEmails"; "showConfirmation"; "theme"]} : gset string) /\
  storage (loadSettings st) = storage st /\
  dom (settings_to_save (form st) now_iso)
  = ({["defaultAction"; "maxEmails"; "showConfirmation"; "lastUpdated"]} : gset string) /\
  storage (saveSettings now_iso st)
  = settings_to_save (form st) now_iso ∪ storage st /\
  storage (saveSettings now_iso st) !! "theme" = storage st !! "theme" /\
  storage (popup_step now_iso ev st)
  = match ev with
    | ClickSave => storage (saveSettings now_iso st)
    | Keypress key =>
        if String.eqb key "Enter" then storage (saveSettings now_iso st) else storage st
    | _ => storage st
    end /\
  (actionTypeSelect (form (popup_step now_iso ev st)),
   maxEmailsInput_value (form (popup_step now_iso ev st)),
   showConfirmationCheckbox_checked (form (popup_step now_iso ev st)))
  = match ev with
    | DOMContentLoaded =>
        let f := loadSettings_callback (storage_get DEFAULT_SETTINGS (storage st)) (form st) in
        (actionTypeSelect f, maxEmailsInput_value f, showConfirmationCheckbox_checked f)
    | _ => (actionTypeSelect (form st), maxEmailsInput_value (form st),
            showConfirmationCheckbox_checked (form st))
    end /\
  Background.onInstalled (storage st) = <["settings" := JObj []]> (storage st).
Proof.
  refine (conj _ (conj eq_refl (conj _ (conj eq_refl (conj _ (conj _ (conj _ _))))))).
  - rewrite storage_get_dom. apply DEFAULT_SETTINGS_dom.
  - apply settings_to_save_dom.
  - cbn [saveSettings storage]. unfold storage_set.
    rewrite lookup_union_r; [reflexivity|].
    apply not_elem_of_dom. rewrite settings_to_save_dom.
    rewrite !elem_of_union, !elem_of_singleton. intuition discriminate.
  - destruct ev; cbn; try reflexivity.
    destruct (String.eqb key "Enter"); reflexivity.
  - destruct ev; cbn; try reflexivity.
    destruct (String.eqb key "Enter"); reflexivity.
  - unfold Background.onInstalled, storage_set.
    rewrite insert_empty. symmetry. apply insert_union_singleton_l.
Qed.

End SettingsLifecycle.

(** ** The stubbed actions of the background script *)

Section Stubs.
Import Js Chrome Background.

Lemma prefix_refl (s : string) : String.prefix s s = true.
Proof.
  induction s as [|c s IH]; [reflexivity|].
  cbn. destruct (Ascii.ascii_dec c c); [exact IH | congruence].
Qed.

Lemma includes_refl (s : string) : includes s s = true.
Proof. destruct s; cbn [includes]; rewrite prefix_refl; reflexivity. Qed.

(** A string built by appending [s] to a prefix contains [s]. *)
Lemma includes_append (p s : string) : includes (p +:+ s) s = true.
Proof.
  induction p as [|c p IH].
  - apply includes_refl.
  - change (String c p +:+ s) with (String c (p +:+ s)).
    change (includes (String c (p +:+ s)) s)
      with (String.prefix s (String c (p +:+ s)) || includes (p +:+ s) s).
    rewrite IH. apply orb_true_r.
Qed.

Lemma drop_app_length {A} (l k : list A) : drop (length l) (l ++ k) = k.
Proof. induction l; [reflexivity | assumption]. Qed.

Lemma processUnsubscribe_run (env : environment) (w : world) (senderEmail : string) :
  processUnsubscribe senderEmail env w
  = ({| now := now w + 1000; st := st w;
        trace := trace w ++ [ConsoleLog ("Attempting to unsubscribe from " +:+ senderEmail);
                             SetTimeout 1000] |},
     Resolved {| success := true;
                 message := "Successfully unsubscribed from " +:+ senderEmail;
                 timestamp := toISOString env (now w + 1000);
                 count := None |}).
Proof.
  unfold processUnsubscribe, bind, try_catch, emit, sleep, now_iso, ret.
  cbn. rewrite <- app_assoc. reflexivity.
Qed.

Lemma processDelete_run (env : environment) (w : world) (senderEmail : string) :
  processDelete senderEmail env w
  = ({| now := now w + 1000; st := st w;
        trace := trace w ++ [ConsoleLog ("Attempting to delete emails from " +:+ senderEmail);
                             SetTimeout 1000] |},
     Resolved {| success := true;
                 message := "Successfully deleted emails from " +:+ senderEmail;
                 timestamp := toISOString env (now w + 1000);
                 count := Some 42 |}).
Proof.
  unfold processDelete, bind, try_catch, emit, sleep, now_iso, ret.
  cbn. rewrite <- app_assoc. reflexivity.
Qed.

(** C2.  For every sender, browser and starting world,
    [processUnsubscribe] resolves, one second of timer time later, with
    [success] true and a message that contains the sender, and
    [processDelete] resolves after the same delay with [success] true and
    a count of 42; each arms exactly one timer, of 1000 ms, asks for no
    token and fetches nothing; the stubs of actions.js resolve with
    [success] true as well. *)
Theorem stubs_resolve_after_fixed_timer
    (env : environment) (w : world) (senderEmail : string) :
  processUnsubscribe senderEmail env w
  = ({| now := now w + 1000; st := st w;
        trace := trace w ++ [ConsoleLog ("Attempting to unsubscribe from " +:+ senderEmail);
                             SetTimeout 1000] |},
     Resolved {| success := true;
                 message := "Successfully unsubscribed from " +:+ senderEmail;
                 timestamp := toISOString env (now w + 1000);
                 count := None |}) /\
  includes ("Successfully unsubscribed from " +:+ senderEmail) senderEmail = true /\
  existsb calls_out (appended w (fst (processUnsubscribe senderEmail env w))) = false /\
  processDelete senderEmail env w
  = ({| now := now w + 1000; st := st w;
        trace := trace w ++ [ConsoleLog ("Attempting to delete emails from " +:+ senderEmail);
                             SetTimeout 1000] |},
     Resolved {| success := true;
                 message := "Successfully deleted emails from " +:+ senderEmail;
                 timestamp := toISOString env (now w + 1000);
                 count := Some 42 |}) /\
  existsb calls_out (appended w (fst (processDelete senderEmail env w))) = false /\
  Actions.success (snd (Actions.unsubscribe senderEmail)) = true /\
  Actions.success (snd (Actions.deleteEmails senderEmail)) = true.
Proof.
  pose proof (processUnsubscribe_run env w senderEmail) as Hu.
  pose proof (processDelete_run env w senderEmail) as Hd.
  rewrite Hu, Hd. unfold appended. cbn [fst trace].
  rewrite !drop_app_length.
  refine (conj eq_refl (conj _ (conj eq_refl (conj eq_refl (conj eq_refl (conj eq_refl eq_refl)))))).
  apply includes_append.
Qed.

End Stubs.

(** ** The join of the two stubs *)

Section Join.
Import Js Chrome Background.

(** C4, against the claim as worded: with the user signed out and no
    token granted, [handleAction] on the action ['both'] rejects before
    either stub is called: no timer is armed and no pair of results is
    returned. *)
Lemma both_rejects_when_signed_out :
  snd (handleAction "news@example.com" "both" signed_out start_world)
  = Rejected (Error "Authentication required. Please sign in to continue.") /\
  timers (trace (fst (handleAction "news@example.com" "both" signed_out start_world))) = [].
Proof. split; reflexivity. Qed.

(** Whatever [ensureAuthenticated] does, it arms no timer. *)
Lemma ensureAuthenticated_arms_nothing (env : environment) (w : world) :
  exists l, trace (fst (ensureAuthenticated env w)) = (trace w ++ l)%list /\ timers l = [].
Proof.
  unfold ensureAuthenticated, getAuthToken, fetchUserInfo,
    bind, try_catch, emit, get_state, set_state, ret, throw.
  destruct (isAuthenticated (st w)); cbn [fst snd trace].
  - exists []. rewrite app_nil_r. split; reflexivity.
  - destruct (auth_token env) as [token|]; cbn [fst snd trace];
      [destruct (userinfo_reply env token) as [e | [|] [e|info]]; cbn [fst snd trace]|];
      rewrite <- ?app_assoc; eexists; (split; [reflexivity|]); reflexivity.
Qed.

(** C4, amended.  For every sender, [handleAction] on the action
    ['both'] first awaits [ensureAuthenticated].  When that resolves, it
    starts [processUnsubscribe] and [processDelete] on that sender from
    the same instant, arms their two timers and nothing else, and
    resolves one second later with the object holding the result of
    each.  When that rejects, [handleAction] logs the error and rejects
    with it at once: nothing of either stub runs and no timer is armed
    in the whole call.  And the object built by [unsubscribeAndDelete]
    has [success] true exactly when both of its sub-results have. *)
Theorem both_joins_two_stubs
    (env : environment) (w w1 : world) (outcome : settled bool) (senderEmail : string) :
  ensureAuthenticated env
    {| now := now w; st := st w;
       trace := trace w ++ [ConsoleLog ("Processing both for " +:+ senderEmail)] |}
  = (w1, outcome) ->
  match outcome with
  | Resolved ok =>
      let wu := fst (processUnsubscribe senderEmail env w1) in
      let wd := fst (processDelete senderEmail env
                       {| now := now w1; st := st wu; trace := trace wu |}) in
      (exists ru rd,
         snd (processUnsubscribe senderEmail env w1) = Resolved ru /\
         snd (processDelete senderEmail env
                {| now := now w1; st := st wu; trace := trace wu |}) = Resolved rd /\
         handleAction senderEmail "both" env w
         = ({| now := now w1 + 1000; st := st w1; trace := trace wd |},
            Resolved (Both ru rd))) /\
      appended w1 wd
      = [ConsoleLog ("Attempting to unsubscribe from " +:+ senderEmail); SetTimeout 1000;
         ConsoleLog ("Attempting to delete emails from " +:+ senderEmail); SetTimeout 1000]
  | Rejected e =>
      handleAction senderEmail "both" env w
      = ({| now := now w1; st := st w1;
            trace := trace w1 ++ [ConsoleError "Error processing action:" e] |},
         Rejected e) /\
      appended w1 (fst (handleAction senderEmail "both" env w))
      = [ConsoleError "Error processing action:" e] /\
      timers (appended w (fst (handleAction senderEmail "both" env w))) = []
  end /\
  (forall u d : Actions.action_result,
      Actions.combined_success (Actions.combine u d) = true
      <-> Actions.success u = true /\ Actions.success d = true) /\
  snd (Actions.unsubscribeAndDelete senderEmail)
  = Actions.combine (snd (Actions.unsubscribe senderEmail))
                    (snd (Actions.deleteEmails senderEmail)).
Proof.
  intros Hauth.
  set (w0 := {| now := now w; st := st w;
                trace := trace w ++ [ConsoleLog ("Processing both for " +:+ senderEmail)] |})
    in Hauth.
  assert (Hrun : handleAction senderEmail "both" env w
    = match outcome with
      | Resolved _ =>
          match all2 (processUnsubscribe senderEmail) (processDelete senderEmail) env w1 with
          | (w2, Resolved results) => (w2, Resolved (Both (fst results) (snd results)))
          | (w2, Rejected e) =>
              ({| now := now w2; st := st w2;
                  trace := trace w2 ++ [ConsoleError "Error processing action:" e] |},
               Rejected e)
          end
      | Rejected e =>
          ({| now := now w1; st := st w1;
              trace := trace w1 ++ [ConsoleError "Error processing action:" e] |},
           Rejected e)
      end).
  { unfold handleAction, try_catch, emit. unfold bind at 1 2.
    match goal with |- context [ensureAuthenticated env ?x] => change x with w0 end.
    rewrite Hauth. destruct outcome as [ok|e].
    - cbn [String.eqb Ascii.eqb Bool.eqb]. unfold bind at 1.
      destruct (all2 (processUnsubscribe senderEmail) (processDelete senderEmail) env w1)
        as [w2 [results|e]]; reflexivity.
    - reflexivity. }
  split; [|split; [|reflexivity]].
  - destruct outcome as [ok|e].
    + cbv zeta.
      pose proof (processUnsubscribe_run env w1 senderEmail) as Hu.
      pose proof (processDelete_run env
                    {| now := now w1;
                       st := st (fst (processUnsubscribe senderEmail env w1));
                       trace := trace (fst (processUnsubscribe senderEmail env w1)) |}
                    senderEmail) as Hd.
      rewrite Hd. rewrite Hu in *. cbn [fst snd now st trace] in *. split.
      * eexists _, _. split; [reflexivity|]. split; [reflexivity|].
        rewrite Hrun. unfold all2. rewrite Hu. cbn [fst snd now st trace]. rewrite Hd.
        cbn [fst snd now st trace]. rewrite Z.max_id. reflexivity.
      * unfold appended. cbn [trace]. rewrite <- app_assoc. apply drop_app_length.
    + rewrite Hrun. cbn [fst]. split; [reflexivity|]. split.
      * unfold appended. cbn [trace]. apply drop_app_length.
      * destruct (ensureAuthenticated_arms_nothing env w0) as (l & Hl & Ht).
        rewrite Hauth in Hl. cbn [fst] in Hl. unfold appended. cbn [trace].
        rewrite Hl. subst w0. cbn [trace]. rewrite <- !app_assoc, drop_app_length.
        unfold timers in *. rewrite !flat_map_app, Ht. reflexivity.
  - intros u d. unfold Actions.combine. cbn. apply andb_true_iff.
Qed.

(** The amended statement in a browser that grants the token, and in
    one that does not. *)
Lemma both_joins_two_stubs_witness :
  (exists ru rd,
    handleAction "news@example.com" "both" signed_in start_world
    = ({| now := 1000;
          st := {| isAuthenticated := true;
                   currentUser := Some (JStr "user@example.com");
                   lastAction := None |};
          trace := [ConsoleLog "Processing both for news@example.com"; GetAuthToken;
                    Fetch "https://www.googleapis.com/oauth2/v2/userinfo" "Bearer token";
                    ConsoleLog "Attempting to unsubscribe from news@example.com";
                    SetTimeout 1000;
                    ConsoleLog "Attempting to delete emails from news@example.com";
                    SetTimeout 1000] |},
       Resolved (Both ru rd))) /\
  timers (appended start_world
            (fst (handleAction "news@example.com" "both" signed_out start_world))) = [].
Proof.
  split.
  - pose proof (both_joins_two_stubs signed_in start_world
                {| now := 0;
                   st := {| isAuthenticated := true;
                            currentUser := Some (JStr "user@example.com");
                            lastAction := None |};
                   trace := [ConsoleLog "Processing both for news@example.com"; GetAuthToken;
                             Fetch "https://www.googleapis.com/oauth2/v2/userinfo"
                                   "Bearer token"] |}
                (Resolved true) "news@example.com" eq_refl) as Hboth.
    cbv beta iota zeta in Hboth. destruct Hboth as (((ru & rd & _ & _ & H) & _) & _).
    exists ru, rd. exact H.
  - pose proof (both_joins_two_stubs signed_out start_world
                {| now := 0; st := initial_state;
                   trace := [ConsoleLog "Processing both for news@example.com"; GetAuthToken;
                             ConsoleError "Authentication failed:"
                                          (Error "[object Object]")] |}
                (Rejected (Error "Authentication required. Please sign in to continue."))
                "news@example.com" eq_refl) as Hboth.
    cbv beta iota zeta in Hboth. destruct Hboth as ((_ & _ & H) & _).
    exact H.
Defined.

End Join.

(** ** The readiness detector *)

Section Readiness.
Import Js ContentScript.

Lemma waitForGmailContainer_shape (p : page) :
  settled_or_armed (waitForGmailContainer p) /\
  is_fulfilled (waitForGmailContainer p) = fst (isGmailReady p).
Proof.
  unfold waitForGmailContainer, settled_or_armed.
  destruct (isGmailReady p) as [[|] lines]; cbn; intuition reflexivity.
Qed.

Lemma deliver_shape (w : waiter) (ev : wait_event) :
  settled_or_armed w ->
  settled_or_armed (deliver w ev) /\
  is_fulfilled (deliver w ev) = is_fulfilled w || settles ev.
Proof.
  unfold settled_or_armed, is_fulfilled.
  intros [(Hp & Ho & Ht & Hg & Ha) | (Hp & Ho & Ht & Hg & Ha)].
  - destruct ev as [p|]; cbn [deliver]; rewrite ?Hg, ?Ha, Hp; cbn; intuition reflexivity.
  - destruct ev as [p|]; cbn [deliver settles]; rewrite ?Hg, ?Ha.
    + destruct (isGmailReady p) as [[|] lines]; unfold resolve, cleanup, say;
        cbn; rewrite ?Ho, ?Ht, ?Hg, ?Ha, ?Hp; cbn; rewrite ?Hp; cbn; intuition reflexivity.
    + unfold resolve, cleanup, say; cbn; rewrite ?Ho, ?Ht, ?Hg, ?Ha, ?Hp; cbn;
        rewrite ?Hp; cbn; intuition reflexivity.
Qed.

Lemma deliver_all_shape (evs : list wait_event) :
  forall w, settled_or_armed w ->
    settled_or_armed (deliver_all evs w) /\
    is_fulfilled (deliver_all evs w) = is_fulfilled w || existsb settles evs.
Proof.
  induction evs as [|ev evs IH]; intros w Hw; cbn [deliver_all fold_left existsb].
  - rewrite orb_false_r. split; [exact Hw | reflexivity].
  - destruct (deliver_shape w ev Hw) as [Hw' Hf].
    destruct (IH _ Hw') as [Hs Hf']. split; [exact Hs|].
    fold (deliver_all evs (deliver w ev)). rewrite Hf', Hf, orb_assoc. reflexivity.
Qed.

Lemma shape_released (w : waiter) :
  settled_or_armed w ->
  (forall e, promise w <> RejectedWith e) /\
  released w = is_fulfilled w /\
  observing w = negb (is_fulfilled w) /\
  timer_armed w = negb (is_fulfilled w).
Proof.
  unfold settled_or_armed, released, is_fulfilled.
  intros [(Hp & Ho & Ht & Hg & Ha) | (Hp & Ho & Ht & Hg & Ha)];
    rewrite Hp, Ho, Ht, Hg, Ha; cbn; repeat split; intros; discriminate.
Qed.

(** C9.  From every page and after every sequence of mutation batches
    and timer expiries, the promise of [waitForGmailContainer] is never
    rejected; it is fulfilled at once exactly when the Gmail check passes
    on the page, otherwise as soon as a mutation batch arrives on a page
    where the check passes, and in any case once the fallback timer of
    10 seconds expires, which stays armed for as long as the promise is
    pending; and whenever the promise is fulfilled the observer is
    disconnected, the timer is cleared and both variables are null. *)
Theorem waitForGmailContainer_always_resolves (p : page) (evs : list wait_event) :
  let w := deliver_all evs (waitForGmailContainer p) in
  (forall e, promise w <> RejectedWith e) /\
  is_fulfilled (waitForGmailContainer p) = fst (isGmailReady p) /\
  is_fulfilled w = fst (isGmailReady p) || existsb settles evs /\
  released w = is_fulfilled w /\
  observing w = negb (is_fulfilled w) /\
  timer_armed w = negb (is_fulfilled w) /\
  is_fulfilled (deliver w FallbackTimeout) = true /\
  released (deliver w FallbackTimeout) = true /\
  (fst (isGmailReady p) = false ->
   existsb (fun e => match e with SetTimeoutFallback 10000 => true | _ => false end)
     (performed (waitForGmailContainer p)) = true).
Proof.
  intros w.
  destruct (waitForGmailContainer_shape p) as [H0 Hf0].
  destruct (deliver_all_shape evs _ H0) as [Hw Hf]. fold w in Hw, Hf.
  destruct (shape_released w Hw) as (Hrej & Hrel & Hobs & Harm).
  destruct (deliver_shape w FallbackTimeout Hw) as [Hw' Hf'].
  destruct (shape_released _ Hw') as (_ & Hrel' & _).
  cbn [settles] in Hf'. rewrite orb_true_r in Hf'.
  rewrite Hf0 in Hf.
  repeat (split; [assumption|]). split; [congruence|].
  intros Hnot. unfold waitForGmailContainer.
  destruct (isGmailReady p) as [ready lines]. cbn in Hnot. subst ready.
  cbn [performed]. rewrite existsb_app. cbn. apply orb_true_r.
Qed.

(** C9 on a page that is not ready and never becomes so: two mutation
    batches leave the call waiting, the timer settles it. *)
Lemma waitForGmailContainer_always_resolves_witness :
  let p := {| hostname := "mail.google.com";
              has_main_container := true; has_email_list := false |} in
  is_fulfilled (deliver_all [Mutation p; Mutation p] (waitForGmailContainer p)) = false /\
  is_fulfilled (deliver_all [Mutation p; Mutation p; FallbackTimeout]
                  (waitForGmailContainer p)) = true /\
  existsb (fun e => match e with SetTimeoutFallback 10000 => true | _ => false end)
    (performed (waitForGmailContainer p)) = true.
Proof.
  intros p.
  destruct (waitForGmailContainer_always_resolves p [Mutation p; Mutation p])
    as (_ & _ & H1 & _ & _ & _ & H2 & _ & H3).
  split; [exact H1|]. split; [exact H2|]. apply H3. reflexivity.
Defined.

End Readiness.

(** ** Button injection *)

Section Injection.
Import Js Dom ContentScript.

Lemma has_class_last (c : string) (l : list string) :
  has_class c (l ++ [c]) = true.
Proof.
  unfold has_class. rewrite existsb_app. cbn.
  rewrite String.eqb_refl. cbn. apply orb_true_r.
Qed.

Lemma existsb_find {A} (f : A -> bool) (l : list A) :
  existsb f l = match find f l with Some _ => true | None => false end.
Proof.
  induction l as [|a l IH]; [reflexivity|].
  cbn. destruct (f a); [reflexivity | exact IH].
Qed.

Lemma insert_after_sender_count (els : list element) :
  existsb is_sender_span els = true ->
  triggers_in (insert_after_sender els) = S (triggers_in els).
Proof.
  unfold triggers_in. induction els as [|el rest IH]; [discriminate|].
  cbn [existsb insert_after_sender]. destruct (is_sender_span el).
  - intros _. cbn [List.filter]. change (is_trigger trigger) with true.
    destruct (is_trigger el); reflexivity.
  - cbn [orb]. intros H. cbn [List.filter].
    destruct (is_trigger el); cbn [length]; rewrite (IH H); reflexivity.
Qed.

Lemma list_sum_cons_eq (a : nat) (l : list nat) :
  list_sum (a :: l) = (a + list_sum l)%nat.
Proof. reflexivity. Qed.

Lemma insert_trigger_count (cs : list cell) (el : element) :
  find_sender_cell cs = Some el ->
  list_sum (map (fun c => triggers_in (children c)) (insert_trigger cs))
  = S (list_sum (map (fun c => triggers_in (children c)) cs)).
Proof.
  revert el. induction cs as [|c rest IH]; intros el; [discriminate|].
  cbn [find_sender_cell insert_trigger]. rewrite existsb_find.
  destruct (is_thread_cell c); cbn [andb].
  - destruct (find is_sender_span (children c)) as [found|] eqn:Hfind.
    + intros _. cbn [map children]. rewrite !list_sum_cons_eq.
      rewrite insert_after_sender_count; [reflexivity|].
      rewrite existsb_find, Hfind. reflexivity.
    + intros H. cbn [map]. rewrite !list_sum_cons_eq, (IH _ H). lia.
  - intros H. cbn [map]. rewrite !list_sum_cons_eq, (IH _ H). lia.
Qed.

(** What a visit does to a row, by the sender it is augmented for. *)
Lemma visit_row_spec (r : email_row) :
  match augmented_for r with
  | Some senderEmail =>
      is_processed r = false /\
      is_processed (fst (visit_row r)) = true /\
      count_triggers (fst (visit_row r)) = S (count_triggers r) /\
      snd (visit_row r) = Some (new_menu senderEmail)
  | None => visit_row r = (r, None)
  end.
Proof.
  unfold augmented_for, visit_row, process_row, selected, is_processed.
  destruct (match lookup_attribute "role" (row_attributes r) with
            | Some role => String.eqb role "row" | None => false end); cbn [andb];
    [|reflexivity].
  destruct (has_class "unclut-processed" (row_classList r)) eqn:Hclass; cbn [negb];
    [reflexivity|].
  destruct (find_sender_cell (cells r)) as [senderCell|] eqn:Hfind; [|reflexivity].
  destruct (getAttribute "email" senderCell) as [senderEmail|]; [|reflexivity].
  destruct (truthy_string senderEmail); [|reflexivity].
  cbn [fst snd row_classList]. rewrite has_class_last.
  repeat split. unfold count_triggers. cbn [cells].
  apply (insert_trigger_count _ _ Hfind).
Qed.

Lemma processed_not_augmented (r : email_row) :
  is_processed r = true -> augmented_for r = None.
Proof.
  unfold augmented_for, selected, is_processed. intros ->.
  rewrite andb_false_r. reflexivity.
Qed.

Lemma visit_row_settled (r : email_row) :
  augmented_for (fst (visit_row r)) = None.
Proof.
  pose proof (visit_row_spec r) as H.
  destruct (augmented_for r) as [e|] eqn:He.
  - destruct H as (_ & Hp & _). apply processed_not_augmented. exact Hp.
  - rewrite H. exact He.
Qed.

Lemma visit_row_none (r : email_row) :
  augmented_for r = None -> visit_row r = (r, None).
Proof. intros H. pose proof (visit_row_spec r) as Hs. rewrite H in Hs. exact Hs. Qed.

Lemma visit_rows_again (l : list email_row) :
  map visit_row (map fst (map visit_row l))
  = map (fun r => (r, None)) (map fst (map visit_row l)).
Proof.
  induction l as [|r l IH]; [reflexivity|].
  cbn [map]. rewrite IH, (visit_row_none _ (visit_row_settled r)). reflexivity.
Qed.

Lemma omap_snd_none {A B} (l : list A) :
  omap snd (map (fun r => (r, @None B)) l) = [].
Proof. induction l; [reflexivity | assumption]. Qed.

Lemma map_fst_pair {A B} (l : list A) (b : B) :
  map fst (map (fun r => (r, b)) l) = l.
Proof. induction l as [|a l IH]; [reflexivity | cbn; rewrite IH; reflexivity]. Qed.

Lemma injectButtons_twice (d : document) :
  injectButtons (injectButtons d) = injectButtons d.
Proof.
  unfold injectButtons. cbn [rows body_menus].
  rewrite visit_rows_again, omap_snd_none, map_fst_pair, app_nil_r. reflexivity.
Qed.

Lemma omap_cons_eq {A B} (f : A -> option B) (x : A) (l : list A) :
  omap f (x :: l) = match f x with Some y => y :: omap f l | None => omap f l end.
Proof. reflexivity. Qed.

Lemma injectButtons_menus (l : list email_row) :
  omap snd (map visit_row l)
  = omap (fun r => option_map new_menu (augmented_for r)) l.
Proof.
  induction l as [|r l IH]; [reflexivity|].
  cbn [map]. rewrite !omap_cons_eq, IH. pose proof (visit_row_spec r) as H.
  destruct (augmented_for r) as [e|].
  - destruct H as (_ & _ & _ & ->). reflexivity.
  - rewrite H. reflexivity.
Qed.

(** C8.  [injectButtons] is idempotent: a second run, and any number of
    further runs, leaves the document as the first run left it.  In one
    run, each row is either augmented or left as it is; a row is
    augmented only if it did not carry the class [unclut-processed], it
    then carries the class, holds exactly one more trigger button and has
    one menu appended to the body; a row that carries the class is left
    as it is; and after a run no row is left to augment. *)
Theorem injectButtons_idempotent (d : document) :
  injectButtons (injectButtons d) = injectButtons d /\
  (forall n, Nat.iter (S n) injectButtons d = injectButtons d) /\
  Forall2 (fun r r' =>
             (if is_processed r then r' = r else True) /\
             count_triggers r' <= S (count_triggers r) /\
             match augmented_for r with
             | Some _ =>
                 selected r = true /\ is_processed r = false /\
                 is_processed r' = true /\
                 count_triggers r' = S (count_triggers r)
             | None => r' = r
             end)%nat
          (rows d) (rows (injectButtons d)) /\
  body_menus (injectButtons d)
  = (body_menus d ++ omap (fun r => option_map new_menu (augmented_for r)) (rows d))%list /\
  Forall (fun r' => augmented_for r' = None) (rows (injectButtons d)).
Proof.
  split; [apply injectButtons_twice|]. split.
  { induction n as [|n IH]; [reflexivity|].
    change (Nat.iter (S (S n)) injectButtons d)
      with (injectButtons (Nat.iter (S n) injectButtons d)).
    rewrite IH. apply injectButtons_twice. }
  unfold injectButtons. cbn [rows body_menus]. rewrite injectButtons_menus.
  split; [|split; [reflexivity|]].
  - induction (rows d) as [|r l IH]; [constructor|].
    cbn [map]. constructor; [|exact IH].
    pose proof (visit_row_spec r) as H.
    pose proof (processed_not_augmented r) as Hskip.
    destruct (augmented_for r) as [e|] eqn:He.
    + destruct H as (Hn & Hp & Hc & _). rewrite Hn, Hc.
      repeat split; try assumption; try lia.
      unfold augmented_for in He. destruct (selected r); [reflexivity | discriminate].
    + rewrite H. cbn [fst]. repeat split; try lia.
      destruct (is_processed r); [reflexivity | exact I].
  - induction (rows d) as [|r l IH]; [constructor|].
    cbn [map]. constructor; [apply visit_row_settled | exact IH].
Qed.

End Injection.

(** ** Clicks on a menu entry *)

Section Clicks.
Import Js Chrome ContentScript.

(** What one run of [handleAction] sends, shows and logs. *)
Lemma handleAction_effects (senderEmail action : string)
    (outcome : option send_outcome) (s : toast_state) :
  let run := handleAction senderEmail action outcome s in
  sent_messages (snd run) = [ProcessAction senderEmail action] /\
  rendered_toasts (snd run)
  = processing_toast senderEmail action ::
    match outcome with
    | None => []
    | Some (SendResolved _) => [success_toast senderEmail action]
    | Some (SendRejected _) => [failure_toast senderEmail action]
    end /\
  logged_errors (snd run)
  = match outcome with Some (SendRejected e) => [e] | _ => [] end /\
  toast (fst run)
  = Some match outcome with
         | None => processing_toast senderEmail action
         | Some (SendResolved _) => success_toast senderEmail action
         | Some (SendRejected _) => failure_toast senderEmail action
         end.
Proof.
  unfold handleAction, handleAction_begin, handleAction_resume, showToast.
  destruct outcome as [[reply|e]|]; destruct (toast s); cbn;
    repeat split; reflexivity.
Qed.

(** What a click sends and shows, and in which order. *)
Lemma click_effects (b : menu_button) (m : menu)
    (outcome : option send_outcome) (s : toast_state) :
  let '(m', s', effs) := click b m outcome s in
  sent_messages effs = [ProcessAction (click_senderEmail b) (click_action b)] /\
  rendered_toasts effs
  = processing_toast (click_senderEmail b) (click_action b) ::
    match outcome with
    | None => []
    | Some (SendResolved _) => [success_toast (click_senderEmail b) (click_action b)]
    | Some (SendRejected _) => [failure_toast (click_senderEmail b) (click_action b)]
    end /\
  (exists before after,
     effs = (before ++ SendMessage (ProcessAction (click_senderEmail b) (click_action b))
                    :: after)%list /\
     rendered_toasts before = [processing_toast (click_senderEmail b) (click_action b)]) /\
  display m' = "none".
Proof.
  unfold click, handleAction_begin, handleAction_resume, showToast.
  destruct outcome as [[reply|e]|]; destruct (toast s); cbn [app].
  all: split; [reflexivity|]; split; [reflexivity|]; split; [|reflexivity].
  all: first
    [ eexists [_; _; _; _; _], _; split; reflexivity
    | eexists [_; _; _; _], _; split; reflexivity ].
Qed.

(** C7.  For every sender, the menu built for it has one entry per
    action, [unsubscribe], [delete] and [both]; a click on an entry sends
    exactly one runtime message, of type [processAction], carrying that
    sender and the action of the entry, shows the processing toast before
    the send and, once the send has settled, the success toast or the
    failure toast, and hides the menu; and the menus a run of
    [injectButtons] appends are the menus built for the senders of the
    rows it augments. *)
Theorem click_sends_processAction (senderEmail : string) (d : document) :
  map click_action (buttons (new_menu senderEmail)) = ["unsubscribe"; "delete"; "both"] /\
  Forall (fun b =>
     click_senderEmail b = senderEmail /\
     forall (m : menu) (outcome : option send_outcome) (s : toast_state),
       let '(m', s', effs) := click b m outcome s in
       sent_messages effs = [ProcessAction senderEmail (click_action b)] /\
       rendered_toasts effs
       = processing_toast senderEmail (click_action b) ::
         match outcome with
         | None => []
         | Some (SendResolved _) => [success_toast senderEmail (click_action b)]
         | Some (SendRejected _) => [failure_toast senderEmail (click_action b)]
         end /\
       (exists before after,
          effs = (before ++ SendMessage (ProcessAction senderEmail (click_action b)) :: after)%list /\
          rendered_toasts before = [processing_toast senderEmail (click_action b)]) /\
       display m' = "none")
    (buttons (new_menu senderEmail)) /\
  body_menus (injectButtons d)
  = (body_menus d ++ map new_menu (omap augmented_for (rows d)))%list.
Proof.
  split; [reflexivity|]. split.
  - unfold new_menu, actions. cbn [map buttons].
    repeat (apply List.Forall_cons;
            [split; [reflexivity|]; intros m outcome s;
             exact (click_effects _ m outcome s) |]).
    apply List.Forall_nil.
  - unfold injectButtons. cbn [body_menus]. f_equal.
    induction (rows d) as [|r l IH]; [reflexivity|].
    cbn [map]. rewrite !omap_cons_eq, IH. pose proof (visit_row_spec r) as H.
    destruct (augmented_for r) as [e|].
    + destruct H as (_ & _ & _ & ->). reflexivity.
    + rewrite H. reflexivity.
Qed.

End Clicks.

(** ** Errors of an action *)

Section ActionErrors.
Import Js Chrome ContentScript.

(** A rejection of the background [handleAction] always comes out of its
    [catch] block, which has logged it. *)
Lemma background_rejection_logged (senderEmail action : string)
    (env : Background.environment) (w w' : Background.world) (err : error) :
  Background.handleAction senderEmail action env w = (w', Background.Rejected err) ->
  last (Background.trace w') = Some (Background.ConsoleError "Error processing action:" err).
Proof.
  unfold Background.handleAction. unfold Background.bind at 1.
  unfold Background.emit at 1. unfold Background.try_catch.
  match goal with
  | |- context [match ?body env ?w0 with _ => _ end] => destruct (body env w0) as [w1 [r|e0]]
  end.
  - discriminate.
  - unfold Background.bind, Background.emit, Background.throw.
    intros H. injection H as <- <-. cbn [Background.trace]. apply last_snoc.
Qed.

(** The two error paths that do surface the error.  When the send of
    the [processAction] message fails, the content script's
    [handleAction] passes the error to [console.error], leaves the
    failure toast on screen and has sent the message once, without
    trying again; and when the background [handleAction] rejects, the
    rejection has been logged to the console and the listener replies,
    once, with [success] false and the error's message, as it replies
    with [success] true and the result when it resolves. *)
Theorem action_errors_logged_and_toasted
    (senderEmail action : string) (e : error) (s : toast_state)
    (env : Background.environment) (w : Background.world) :
  (let run := handleAction senderEmail action (Some (SendRejected e)) s in
   logged_errors (snd run) = [e] /\
   last (rendered_toasts (snd run)) = Some (failure_toast senderEmail action) /\
   toast (fst run) = Some (failure_toast senderEmail action) /\
   sent_messages (snd run) = [ProcessAction senderEmail action]) /\
  match Background.handleAction senderEmail action env w with
  | (w', Background.Rejected err) =>
      last (Background.trace w')
      = Some (Background.ConsoleError "Error processing action:" err) /\
      Background.onMessage (ProcessAction senderEmail action) env w
      = ({| Background.now := Background.now w';
            Background.st := Background.st w';
            Background.trace :=
              Background.trace w'
              ++ [Background.SendResponse (Background.ResponseError (Js.message err))] |},
         Some (Background.ResponseError (Js.message err))) /\
      Background.response_success (Background.ResponseError (Js.message err)) = false
  | (w', Background.Resolved result) =>
      Background.onMessage (ProcessAction senderEmail action) env w
      = ({| Background.now := Background.now w';
            Background.st := Background.st w';
            Background.trace :=
              Background.trace w' ++ [Background.SendResponse (Background.ResponseOk result)] |},
         Some (Background.ResponseOk result))
  end.
Proof.
  split.
  - pose proof (handleAction_effects senderEmail action (Some (SendRejected e)) s)
      as (Hs & Ht & He & Hl).
    cbn zeta. rewrite Hs, Ht, He, Hl. repeat split; reflexivity.
  - pose proof (background_rejection_logged senderEmail action env w) as Hlog.
    unfold Background.onMessage.
    destruct (Background.handleAction senderEmail action env w) as [w' [result|err]].
    + reflexivity.
    + split; [apply (Hlog w' err eq_refl)|]. split; reflexivity.
Qed.

(** The content script does not look at the reply: a reply with
    [success] false still resolves the send, and the toast left on
    screen is the success toast. *)
Example failed_reply_ends_on_success_toast :
  toast (fst (handleAction "news@example.com" "both"
                (Some (SendResolved (Some (Background.ResponseError
                   "Authentication required. Please sign in to continue."))))
                {| toast := None; toastTimeout := None; timers_created := 0 |}))
  = Some (success_toast "news@example.com" "both").
Proof. reflexivity. Qed.

(** C5.  Where the code departs from the claim: an error of the
    background script is not surfaced as a failure.  Whatever reply the
    send resolves with, a reply with [success] false included, the
    content script's [handleAction] never reads it: it logs no error,
    shows no failure toast and ends on the success toast.  So for a user
    who is signed out and is not granted a token, the listener replies
    with [success] false and the sign-in message, and the page shows
    that the action was processed successfully. *)
Theorem background_error_ends_on_success_toast :
  (forall (senderEmail action : string) (reply : option Background.response)
          (s : toast_state),
      let run := handleAction senderEmail action (Some (SendResolved reply)) s in
      toast (fst run) = Some (success_toast senderEmail action) /\
      rendered_toasts (snd run)
      = [processing_toast senderEmail action; success_toast senderEmail action] /\
      logged_errors (snd run) = []) /\
  (let reply := snd (Background.onMessage (ProcessAction "news@example.com" "both")
                       Background.signed_out Background.start_world) in
   reply = Some (Background.ResponseError
                   "Authentication required. Please sign in to continue.") /\
   toast (fst (handleAction "news@example.com" "both" (Some (SendResolved reply)) no_toast))
   = Some (success_toast "news@example.com" "both")).
Proof.
  split.
  - intros senderEmail action reply s.
    destruct (handleAction_effects senderEmail action (Some (SendResolved reply)) s)
      as (_ & Ht & He & Hl).
    cbv zeta. rewrite Ht, He, Hl. repeat split; reflexivity.
  - cbv zeta. split; reflexivity.
Qed.

End ActionErrors.

(** ** The string primitives on a few inputs *)

Section Primitives.
Import Js.

Example parseInt10_examples :
  parseInt10 "  -12px" = Some (-12) /\ parseInt10 "+7" = Some 7 /\
  parseInt10 "0" = Some 0 /\ parseInt10 "abc" = None /\
  parseInt10 "-" = None /\ parseInt10 EmptyString = None.
Proof. repeat split; reflexivity. Qed.

Example trim_examples :
  trim "  Weekly Digest " = "Weekly Digest" /\ trim "   " = EmptyString /\
  trim "a  b" = "a  b".
Proof. repeat split; reflexivity. Qed.

End Primitives.

(** ** Numbers through the limit field *)

Section NumberField.
Import Js Chrome Popup.

Lemma digit_value_pretty (d : N) :
  (d < 10)%N -> digit_value (pretty_N_char d) = Some (Z.of_N d).
Proof.
  intros Hd.
  assert (d = 0 \/ d = 1 \/ d = 2 \/ d = 3 \/ d = 4 \/ d = 5 \/ d = 6 \/ d = 7
          \/ d = 8 \/ d = 9)%N as H by lia.
  repeat (destruct H as [-> | H]; [reflexivity|]). subst d. reflexivity.
Qed.

(** Reading back the digits written in front of [s]. *)
Lemma parse_digits_pretty_go (x : N) :
  forall s, (0 < x)%N ->
    parse_digits (pretty_N_go x s) 0 false = parse_digits s (Z.of_N x) true /\
    exists d rest, (d < 10)%N /\ pretty_N_go x s = String (pretty_N_char d) rest.
Proof.
  induction (N.lt_wf_0 x) as [x _ IH]. intros s Hx.
  rewrite pretty_N_go_step by exact Hx.
  assert (Hmod : (x `mod` 10 < 10)%N) by (apply N.mod_lt; lia).
  assert (Hdm : (x = 10 * (x `div` 10) + x `mod` 10)%N) by (apply N.div_mod; lia).
  destruct (N.eq_dec (x `div` 10)%N 0%N) as [Hz | Hnz].
  - rewrite Hz, pretty_N_go_0. split.
    + cbn [parse_digits]. rewrite (digit_value_pretty _ Hmod).
      f_equal. lia.
    + exists (x `mod` 10)%N, s. split; [exact Hmod | reflexivity].
  - assert (Hlt : (x `div` 10 < x)%N) by (apply N.div_lt; lia).
    destruct (IH _ Hlt (String (pretty_N_char (x `mod` 10)) s)) as [Hp Hhead]; [lia|].
    split; [|exact Hhead].
    rewrite Hp. cbn [parse_digits]. rewrite (digit_value_pretty _ Hmod).
    f_equal. lia.
Qed.

Lemma parseInt10_digit_head (d : N) (rest : string) :
  (d < 10)%N ->
  parseInt10 (String (pretty_N_char d) rest)
  = (let '(v, seen) := parse_digits (String (pretty_N_char d) rest) 0 false in
     if seen then Some v else None).
Proof.
  intros Hd.
  assert (d = 0 \/ d = 1 \/ d = 2 \/ d = 3 \/ d = 4 \/ d = 5 \/ d = 6 \/ d = 7
          \/ d = 8 \/ d = 9)%N as H by lia.
  repeat (destruct H as [-> | H]; [reflexivity|]). subst d. reflexivity.
Qed.

(** [parseInt(String(n), 10)] is [n]. *)
Lemma parseInt10_pretty (n : Z) : parseInt10 (pretty n) = Some n.
Proof.
  destruct n as [|p|p]; [reflexivity| |].
  - change (pretty (Z.pos p)) with (pretty_N_go (N.pos p) EmptyString).
    destruct (parse_digits_pretty_go (N.pos p) EmptyString) as [Hp (d & rest & Hd & Hs)];
      [lia|].
    rewrite Hs, (parseInt10_digit_head d rest Hd), <- Hs, Hp. reflexivity.
  - change (pretty (Z.neg p)) with (String "-" (pretty_N_go (N.pos p) EmptyString)).
    destruct (parse_digits_pretty_go (N.pos p) EmptyString) as [Hp _]; [lia|].
    unfold parseInt10.
    change (trim_start (String "-" (pretty_N_go (N.pos p) EmptyString)))
      with (String "-" (pretty_N_go (N.pos p) EmptyString)).
    cbv iota beta. rewrite Hp. reflexivity.
Qed.

End NumberField.

(** ** Sessions of the popup *)

Section PopupSessions.
Import Js Chrome Popup.

Lemma parsed_or_100_nonzero (v : string) : parsed_or_100 v <> 0.
Proof.
  unfold parsed_or_100. destruct (parseInt10 v) as [n|]; [|discriminate].
  destruct (n =? 0) eqn:Hn; [discriminate|]. apply Z.eqb_neq. exact Hn.
Qed.

Lemma parsed_or_100_pretty (n : Z) : n <> 0 -> parsed_or_100 (pretty n) = n.
Proof.
  intros Hn. unfold parsed_or_100. rewrite parseInt10_pretty.
  apply Z.eqb_neq in Hn. rewrite Hn. reflexivity.
Qed.

Lemma set_select_value_consistent (sel : select_element) :
  select_consistent sel = true ->
  select_value (set_select_value sel (JStr (select_value sel))) = select_value sel.
Proof.
  unfold select_consistent, set_select_value. cbn [to_string].
  destruct (select_value sel) as [|c v] eqn:Hv.
  - intros _. destruct (existsb _ (options sel)); reflexivity.
  - intros ->. reflexivity.
Qed.

Lemma saved_lookup (st : popup_state) (now_iso : string) :
  let stored := storage (saveSettings now_iso st) in
  stored !! "defaultAction" = Some (JStr (select_value (actionTypeSelect (form st)))) /\
  stored !! "maxEmails" = Some (JNum (parsed_or_100 (maxEmailsInput_value (form st)))) /\
  stored !! "showConfirmation" = Some (JBool (showConfirmationCheckbox_checked (form st))) /\
  stored !! "lastUpdated" = Some (JStr now_iso).
Proof.
  cbn [saveSettings storage]. unfold storage_set, settings_to_save.
  repeat split; apply lookup_union_Some_l;
    repeat first [ apply lookup_insert_eq | rewrite lookup_insert_ne by discriminate ].
Qed.

(** X1.  Saving, reopening the popup and saving again without touching
    the form writes the same three settings, as long as the limit that
    was saved is a safe integer and the value the [select] showed was
    one of its options (or empty): the limit comes back as the decimal
    text of the number stored, which parses to that number, the box
    keeps its tick, and the selected action is kept. *)
Theorem resave_writes_same_settings (now1 now2 : string) (st : popup_state) :
  select_consistent (actionTypeSelect (form st)) = true ->
  is_safe_integer (parsed_or_100 (maxEmailsInput_value (form st))) = true ->
  let reopened := loadSettings (saveSettings now1 st) in
  maxEmailsInput_value (form reopened)
  = pretty (parsed_or_100 (maxEmailsInput_value (form st))) /\
  showConfirmationCheckbox_checked (form reopened)
  = showConfirmationCheckbox_checked (form st) /\
  select_value (actionTypeSelect (form reopened))
  = select_value (actionTypeSelect (form st)) /\
  settings_to_save (form reopened) now2 = settings_to_save (form st) now2.
Proof.
  intros Hsel _ reopened.
  destruct (saved_lookup st now1) as (Ha & Hm & Hc & _).
  assert (Hform : form reopened
    = {| actionTypeSelect :=
           set_select_value (actionTypeSelect (form st))
             (JStr (select_value (actionTypeSelect (form st))));
         maxEmailsInput_value := pretty (parsed_or_100 (maxEmailsInput_value (form st)));
         showConfirmationCheckbox_checked := showConfirmationCheckbox_checked (form st);
         status_lines := S (status_lines (form st)) |}).
  { subst reopened. cbn [loadSettings form]. unfold loadSettings_callback, prop.
    rewrite !storage_get_lookup. cbn zeta in Ha, Hm, Hc. rewrite Ha, Hm, Hc.
    reflexivity. }
  rewrite Hform. cbn [maxEmailsInput_value showConfirmationCheckbox_checked actionTypeSelect].
  rewrite (set_select_value_consistent _ Hsel).
  refine (conj eq_refl (conj eq_refl (conj eq_refl _))).
  unfold settings_to_save.
  cbn [maxEmailsInput_value showConfirmationCheckbox_checked actionTypeSelect].
  rewrite (set_select_value_consistent _ Hsel).
  rewrite (parsed_or_100_pretty _ (parsed_or_100_nonzero _)). reflexivity.
Qed.

(** X1 on the sample popup, whose limit field reads [25]. *)
Lemma resave_writes_same_settings_witness :
  settings_to_save (form (loadSettings (saveSettings "t1" fresh_popup))) "t2"
  = settings_to_save (form fresh_popup) "t2".
Proof.
  apply (resave_writes_same_settings "t1" "t2" fresh_popup); reflexivity.
Defined.

Lemma popup_step_other_keys (now_iso : string) (ev : popup_event) (st : popup_state)
    (k : string) :
  k <> "defaultAction" -> k <> "maxEmails" -> k <> "showConfirmation" ->
  k <> "lastUpdated" ->
  storage (popup_step now_iso ev st) !! k = storage st !! k.
Proof.
  intros H1 H2 H3 H4.
  assert (Hsave : storage (saveSettings now_iso st) !! k = storage st !! k).
  { cbn [saveSettings storage]. unfold storage_set.
    apply lookup_union_r. unfold settings_to_save.
    rewrite !lookup_insert_ne by congruence. apply lookup_empty. }
  destruct ev; cbn; try reflexivity; try exact Hsave.
  destruct (String.eqb key "Enter"); [exact Hsave | reflexivity].
Qed.

(** X2.  Over a whole session of the popup, whatever the events, only
    the four keys [defaultAction], [maxEmails], [showConfirmation] and
    [lastUpdated] of the storage area can change: every other key, the
    stored [theme] among them, reads afterwards as it did before. *)
Theorem session_keeps_other_keys
    (evs : list (string * popup_event)) (st : popup_state) (k : string) :
  k <> "defaultAction" -> k <> "maxEmails" -> k <> "showConfirmation" ->
  k <> "lastUpdated" ->
  storage (popup_run evs st) !! k = storage st !! k.
Proof.
  intros H1 H2 H3 H4. revert st. unfold popup_run.
  induction evs as [|[now_iso ev] evs IH]; intros st; [reflexivity|].
  cbn [fold_left]. rewrite IH. apply popup_step_other_keys; assumption.
Qed.

(** X2 for the key [theme] over a session with two saves. *)
Lemma session_keeps_other_keys_witness :
  storage (popup_run [("t1", DOMContentLoaded); ("t2", ClickSave); ("t3", Keypress "Enter")]
             {| storage := <["theme" := JStr "dark"]> ∅;
                form := form fresh_popup; effects := [] |}) !! "theme"
  = Some (JStr "dark").
Proof.
  rewrite (session_keeps_other_keys _ _ "theme")
    by discriminate.
  reflexivity.
Defined.







(** X4.  The key [settings] written by the background script when the
    extension is installed is never read by the popup: the form shown
    after [loadSettings] is the same with and without that write. *)
Theorem install_write_is_invisible (st : popup_state) :
  form (loadSettings {| storage := Background.onInstalled (storage st);
                        form := form st; effects := effects st |})
  = form (loadSettings st).
Proof.
  cbn [loadSettings form storage]. unfold loadSettings_callback, prop.
  rewrite !storage_get_lookup.
  unfold Background.onInstalled, storage_set.
  rewrite !(lookup_union_r (<["settings":=JObj []]> ∅))
    by (rewrite lookup_insert_ne by discriminate; apply lookup_empty).
  reflexivity.
Qed.

End PopupSessions.

(** ** Authentication and the action handler of the background script *)

Section Authentication.
Import Js Chrome Background.

Ltac run_async :=
  unfold handleAction, ensureAuthenticated, getAuthToken, fetchUserInfo,
    processUnsubscribe, processDelete, all2,
    bind, try_catch, emit, sleep, now_iso, get_state, set_state, ret, throw.

Ltac trace_tail :=
  unfold appended; cbn [fst snd trace now st];
  rewrite <- ?app_assoc; rewrite ?drop_app_length;
  try (rewrite <- (app_nil_r (trace _)) at 1; rewrite drop_app_length).

Lemma ensureAuthenticated_resolved (env : environment) (w w1 : world) (ok : bool) :
  ensureAuthenticated env w = (w1, Resolved ok) ->
  isAuthenticated (st w1) = true /\ lastAction (st w1) = lastAction (st w) /\
  now w1 = now w /\
  (isAuthenticated (st w) = true -> w1 = w).
Proof.
  run_async.
  destruct (isAuthenticated (st w)) eqn:Hauth; cbn.
  - intros H. injection H as <- <-. repeat split; auto.
  - destruct (auth_token env) as [token|]; cbn; [|discriminate].
    destruct (userinfo_reply env token) as [e | [|] [e|info]]; cbn; try discriminate.
    intros H. injection H as <- <-. cbn. repeat split; discriminate.
Qed.

(** X5.  [ensureAuthenticated] resolves exactly when the [state] object
    already says so or the browser grants a token and the user-info
    request answers [ok] with a body that parses.  When it resolves the
    [state] object says authenticated; when it rejects, whatever the
    cause, the error is the same fixed message, the cause has been
    logged, and the [state] object is as it was. *)
Theorem ensureAuthenticated_outcome (env : environment) (w : world) :
  is_resolved (snd (ensureAuthenticated env w)) = isAuthenticated (st w) || grants env /\
  match ensureAuthenticated env w with
  | (w1, Resolved ok) =>
      ok = true /\ isAuthenticated (st w1) = true /\
      lastAction (st w1) = lastAction (st w) /\ now w1 = now w
  | (w1, Rejected e) =>
      e = Error "Authentication required. Please sign in to continue." /\
      st w1 = st w /\ now w1 = now w /\
      exists cause, last (trace w1) = Some (ConsoleError "Authentication failed:" cause)
  end.
Proof.
  run_async. unfold grants.
  destruct (isAuthenticated (st w)) eqn:Hauth; cbn.
  - rewrite Hauth. repeat split; reflexivity.
  - destruct (auth_token env) as [token|]; cbn.
    + destruct (userinfo_reply env token) as [e | [|] [e|info]]; cbn;
        repeat split; try reflexivity; eexists; apply last_snoc.
    + repeat split; try reflexivity. eexists. apply last_snoc.
Qed.

(** X6.  A successful authentication is remembered: once
    [ensureAuthenticated] has resolved, a further call resolves at once
    in any browser, without asking for a token, fetching, logging or
    touching the [state] object. *)
Theorem authentication_is_cached (env env' : environment) (w w1 : world) (ok : bool) :
  ensureAuthenticated env w = (w1, Resolved ok) ->
  ensureAuthenticated env' w1 = (w1, Resolved true).
Proof.
  intros H. destruct (ensureAuthenticated_resolved env w w1 ok H) as (Hs & _).
  run_async. rewrite Hs. reflexivity.
Qed.

(** One run of [handleAction], summed up. *)
Lemma handleAction_summary (env : environment) (w : world) (senderEmail action : string) :
  let run := handleAction senderEmail action env w in
  is_resolved (snd run) = (isAuthenticated (st w) || grants env) && known_action action /\
  timers (appended w (fst run))
  = (if is_resolved (snd run)
     then if String.eqb action "both" then [1000; 1000] else [1000]
     else []) /\
  now (fst run) = now w + (if is_resolved (snd run) then 1000 else 0) /\
  lastAction (st (fst run)) = lastAction (st w) /\
  (if isAuthenticated (st w)
   then st (fst run) = st w /\ existsb calls_out (appended w (fst run)) = false
   else isAuthenticated (st (fst run)) = grants env) /\
  trace (fst run) = (trace w ++ appended w (fst run))%list /\
  responses (appended w (fst run)) = [] /\
  match snd run with
  | Resolved _ => True
  | Rejected e =>
      last (trace (fst run)) = Some (ConsoleError "Error processing action:" e) /\
      e = if isAuthenticated (st w) || grants env
          then Error ("Unknown action: " +:+ action)
          else Error "Authentication required. Please sign in to continue."
  end.
Proof.
  unfold known_action, grants.
  destruct (String.eqb_spec action "unsubscribe") as [-> | Hn1];
    [| destruct (String.eqb_spec action "delete") as [-> | Hn2];
       [| destruct (String.eqb_spec action "both") as [-> | Hn3] ] ].
  all: try (apply String.eqb_neq in Hn1, Hn2, Hn3).
  all: cbv zeta; run_async; rewrite ?Hn1, ?Hn2, ?Hn3;
    cbn [String.eqb Ascii.eqb Bool.eqb fst snd now st trace].
  all: destruct (isAuthenticated (st w)) eqn:Hauth; cbn [fst snd orb andb];
    [ | destruct (auth_token env) as [token|]; cbn [fst snd];
        [ destruct (userinfo_reply env token) as [e | [|] [e|info]]; cbn [fst snd] | ] ].
  all: cbn [is_resolved fst snd now st trace lastAction isAuthenticated orb andb];
    rewrite ?Z.max_id, ?Z.add_0_r.
  all: unfold appended; cbn [fst snd trace]; rewrite <- ?app_assoc, ?drop_app_length;
    cbn [app timers responses flat_map existsb calls_out orb].
  all: repeat match goal with
       | |- _ /\ _ => split
       | |- True => exact I
       | |- last _ = Some _ => rewrite last_app; reflexivity
       | |- _ => reflexivity
       | |- _ => assumption
       end.
Qed.

(** X7.  The background [handleAction] resolves exactly when
    authentication goes through and the action is one of [unsubscribe],
    [delete] and [both].  Otherwise it rejects, having logged the error:
    with the sign-in message when authentication failed, whatever the
    action, and with [Unknown action: ...] naming the action when the
    action is none of the three. *)
Theorem handleAction_resolves_iff
    (env : environment) (w : world) (senderEmail action : string) :
  let run := handleAction senderEmail action env w in
  is_resolved (snd run) = (isAuthenticated (st w) || grants env) && known_action action /\
  match snd run with
  | Resolved _ => True
  | Rejected e =>
      last (trace (fst run)) = Some (ConsoleError "Error processing action:" e) /\
      e = if isAuthenticated (st w) || grants env
          then Error ("Unknown action: " +:+ action)
          else Error "Authentication required. Please sign in to continue."
  end.
Proof.
  destruct (handleAction_summary env w senderEmail action)
    as (H1 & _ & _ & _ & _ & _ & _ & H2).
  split; assumption.
Qed.

(** X8.  A run of [handleAction] that resolves takes exactly 1000 ms of
    timer time and arms one timer of 1000 ms, or two for [both], whose
    stubs wait side by side rather than one after the other; a run that
    rejects arms no timer and takes no timer time. *)
Theorem handleAction_timers
    (env : environment) (w : world) (senderEmail action : string) :
  let run := handleAction senderEmail action env w in
  timers (appended w (fst run))
  = (if is_resolved (snd run)
     then if String.eqb action "both" then [1000; 1000] else [1000]
     else []) /\
  now (fst run) = now w + (if is_resolved (snd run) then 1000 else 0).
Proof.
  destruct (handleAction_summary env w senderEmail action) as (_ & H1 & H2 & _).
  split; assumption.
Qed.

(** X9.  [handleAction] never writes [lastAction].  When the [state]
    object already says authenticated, the run leaves it untouched and
    neither asks for a token nor fetches; when it does not, the sign-in
    is attempted before the action is looked at, so that afterwards the
    object says authenticated exactly when the browser granted the
    sign-in, even for an action that is then rejected as unknown. *)
Theorem handleAction_state
    (env : environment) (w : world) (senderEmail action : string) :
  let run := handleAction senderEmail action env w in
  lastAction (st (fst run)) = lastAction (st w) /\
  (if isAuthenticated (st w)
   then st (fst run) = st w /\ existsb calls_out (appended w (fst run)) = false
   else isAuthenticated (st (fst run)) = grants env).
Proof.
  destruct (handleAction_summary env w senderEmail action) as (_ & _ & _ & H1 & H2 & _).
  split; assumption.
Qed.

(** X10.  The message listener answers a [processAction] request with
    exactly one reply, whose [success] flag is true exactly when
    authentication goes through and the action is known, and it does
    nothing at all on any other message. *)
Theorem listener_replies_once (request : runtime_message) (env : environment) (w : world) :
  match request with
  | ProcessAction senderEmail action =>
      exists reply,
        snd (onMessage request env w) = Some reply /\
        responses (appended w (fst (onMessage request env w))) = [reply] /\
        response_success reply
        = (isAuthenticated (st w) || grants env) && known_action action
  | _ => onMessage request env w = (w, None)
  end.
Proof.
  destruct request as [senderEmail action| |]; try reflexivity.
  destruct (handleAction_summary env w senderEmail action)
    as (Hres & _ & _ & _ & _ & Htrace & Hresp & _).
  cbn zeta in *. unfold onMessage.
  destruct (handleAction senderEmail action env w) as [w' [result|err]];
    cbn [fst snd is_resolved] in *; eexists; (split; [reflexivity|]);
    unfold emit, appended in *; cbn [fst trace];
    rewrite Htrace, <- app_assoc, drop_app_length;
    unfold responses in *; rewrite flat_map_app, Hresp;
    (split; [reflexivity | exact Hres]).
Qed.

(** X6 in a browser that grants the sign-in. *)
Lemma authentication_is_cached_witness :
  ensureAuthenticated signed_out
    (fst (ensureAuthenticated signed_in start_world))
  = (fst (ensureAuthenticated signed_in start_world), Resolved true).
Proof.
  apply (authentication_is_cached signed_in signed_out start_world _ true).
  reflexivity.
Defined.

(** X11.  After the sign-in listener has run, the next
    [ensureAuthenticated] asks the browser for a token exactly when the
    value the listener was given was falsy; the listener leaves
    [lastAction] alone. *)
Theorem sign_in_change_decides_token_request
    (accountId : jsval) (env : environment) (w : world) :
  let w' := {| now := now w; st := onSignInChanged accountId (st w); trace := trace w |} in
  existsb calls_out (appended w' (fst (ensureAuthenticated env w')))
  = negb (to_boolean accountId) /\
  lastAction (st w') = lastAction (st w).
Proof.
  cbv zeta. split; [|reflexivity].
  run_async. unfold onSignInChanged. cbn [st isAuthenticated fst].
  destruct (to_boolean accountId); cbn [negb fst].
  - unfold appended. cbn [trace].
    rewrite <- (app_nil_r (trace w)) at 2. rewrite drop_app_length. reflexivity.
  - destruct (auth_token env) as [token|]; cbn [fst snd];
      [destruct (userinfo_reply env token) as [e | [|] [e|info]]; cbn [fst snd]|];
      unfold appended; cbn [trace]; rewrite <- ?app_assoc, drop_app_length; reflexivity.
Qed.

End Authentication.

(** ** The retry loop as a whole *)

Section RetryBudget.
Import Js ContentScript.

Ltac next_attempt l :=
  destruct l as [|[|?] l];
  [ vm_compute; repeat split; congruence
  | vm_compute; repeat split; congruence
  | ].

(** X12.  Whatever the outcomes of the [init()] calls of one instance,
    the retry timers add up to at most 60 seconds of waiting, and the
    retry count stays between 0 and 5 and equals the number of timers
    armed. *)
Theorem retry_budget (attempts : list init_result) :
  let run := construct attempts in
  0 <= total_delay (snd run) <= 60000 /\
  0 <= retryCount (fst run) <= 5 /\
  retryCount (fst run) = Z.of_nat (length (scheduled_delays (snd run))).
Proof.
  cbv zeta.
  next_attempt attempts. next_attempt attempts. next_attempt attempts.
  next_attempt attempts. next_attempt attempts. next_attempt attempts.
  next_attempt attempts.
  vm_compute; repeat split; congruence.
Qed.

End RetryBudget.

(** ** What the readiness detector leaves behind *)

Section ReadinessResources.
Import Js ContentScript.

Lemma occurrences_app (kind : effect -> bool) (a b : list effect) :
  occurrences kind (a ++ b) = (occurrences kind a + occurrences kind b)%nat.
Proof. unfold occurrences. rewrite List.filter_app, length_app. reflexivity. Qed.

Lemma isGmailReady_only_logs (p : page) :
  occurrences is_observe (snd (isGmailReady p)) = 0%nat /\
  occurrences is_disconnect (snd (isGmailReady p)) = 0%nat /\
  occurrences is_arm_fallback (snd (isGmailReady p)) = 0%nat /\
  occurrences is_clear (snd (isGmailReady p)) = 0%nat.
Proof.
  unfold isGmailReady.
  destruct (negb (String.eqb (hostname p) "mail.google.com")); repeat split; reflexivity.
Qed.

Ltac count_effects :=
  cbn [performed]; rewrite ?occurrences_app;
  repeat match goal with H : occurrences _ _ = _ |- _ => rewrite H; clear H end;
  reflexivity.

Lemma waitForGmailContainer_balanced (p : page) :
  balanced (fst (isGmailReady p)) (waitForGmailContainer p).
Proof.
  unfold waitForGmailContainer, balanced, books.
  destruct (isGmailReady_only_logs p) as (H1 & H2 & H3 & H4).
  destruct (isGmailReady p) as [[|] lines]; cbn [fst snd] in *; [left | right];
    cbn [promise observer timeoutId observing timer_armed];
    repeat split; count_effects.
Qed.

Lemma deliver_balanced (ready : bool) (w : waiter) (ev : wait_event) :
  balanced ready w ->
  balanced ready (deliver w ev) /\ (is_fulfilled w = true -> deliver w ev = w).
Proof.
  unfold balanced, books, is_fulfilled.
  intros [(Hp & Ho & Ht & Hg & Ha & B1 & B2 & B3 & B4)
         | (Hp & Ho & Ht & Hg & Ha & Hr & B1 & B2 & B3 & B4)].
  - assert (Hsame : deliver w ev = w).
    { destruct ev as [q|]; cbn [deliver]; rewrite ?Hg, ?Ha; reflexivity. }
    rewrite Hsame. split; [|reflexivity]. left. repeat split; assumption.
  - split; [|rewrite Hp; discriminate]. subst ready.
    destruct ev as [q|]; cbn [deliver]; rewrite ?Hg, ?Ha.
    + destruct (isGmailReady_only_logs q) as (L1 & L2 & L3 & L4).
      destruct (isGmailReady q) as [[|] lines]; cbn [fst snd] in *.
      * left. unfold resolve, cleanup, say.
        cbn [promise observer timeoutId observing timer_armed performed].
        rewrite Ho, Ht, Hp.
        cbn [promise observer timeoutId observing timer_armed performed].
        repeat split; rewrite ?occurrences_app, ?B1, ?B2, ?B3, ?B4, ?L1, ?L2, ?L3, ?L4;
          reflexivity.
      * right. unfold say.
        cbn [promise observer timeoutId observing timer_armed performed].
        repeat split; try assumption;
          rewrite ?occurrences_app, ?B1, ?B2, ?B3, ?B4, ?L1, ?L2, ?L3, ?L4; reflexivity.
    + left. unfold resolve, cleanup, say.
      cbn [promise observer timeoutId observing timer_armed performed].
      rewrite Ho, Ht, Hp.
      cbn [promise observer timeoutId observing timer_armed performed].
      repeat split; rewrite ?occurrences_app, ?B1, ?B2, ?B3, ?B4; reflexivity.
Qed.

Lemma deliver_all_balanced (ready : bool) (evs : list wait_event) :
  forall w, balanced ready w -> balanced ready (deliver_all evs w).
Proof.
  induction evs as [|ev evs IH]; intros w Hw; [exact Hw|].
  apply IH. apply (deliver_balanced ready w ev Hw).
Qed.

Lemma deliver_all_fulfilled (ready : bool) (evs : list wait_event) :
  forall w, balanced ready w -> is_fulfilled w = true -> deliver_all evs w = w.
Proof.
  induction evs as [|ev evs IH]; intros w Hw Hf; [reflexivity|].
  cbn [deliver_all fold_left].
  rewrite (proj2 (deliver_balanced ready w ev Hw) Hf). apply (IH w Hw Hf).
Qed.

(** X13.  At every moment of a call of [waitForGmailContainer] the
    books balance.  When the check passes at once, no observer is ever
    connected and no timer armed.  Otherwise exactly one observer is
    connected and one timer armed; while the promise is pending nothing
    has been disconnected or cleared, and once it is fulfilled the
    observer has been disconnected exactly once and the timer cleared
    exactly once.  A fulfilled call ignores whatever is delivered
    afterwards: no second resolution, no second clean-up, no console
    line. *)
Theorem waitForGmailContainer_books (p : page) (evs later : list wait_event) :
  let w := deliver_all evs (waitForGmailContainer p) in
  let started := if fst (isGmailReady p) then 0%nat else 1%nat in
  let released_now := if is_fulfilled w then started else 0%nat in
  occurrences is_observe (performed w) = started /\
  occurrences is_arm_fallback (performed w) = started /\
  occurrences is_disconnect (performed w) = released_now /\
  occurrences is_clear (performed w) = released_now /\
  (if is_fulfilled w then deliver_all later w = w else True).
Proof.
  cbv zeta.
  pose proof (deliver_all_balanced _ evs _ (waitForGmailContainer_balanced p)) as Hw.
  pose proof (deliver_all_fulfilled (fst (isGmailReady p)) later _ Hw) as Hlater.
  destruct Hw as [(Hp & _ & _ & _ & _ & B1 & B2 & B3 & B4)
                 | (Hp & _ & _ & _ & _ & Hr & B1 & B2 & B3 & B4)];
    unfold is_fulfilled in *; rewrite Hp in *.
  - repeat split; try assumption. apply Hlater. reflexivity.
  - rewrite Hr in *. repeat split; assumption.
Qed.

End ReadinessResources.

(** ** Clean-up and re-injection *)

Section CleanupReinjection.
Import Js Dom ContentScript.

Lemma remove_triggers_count (r : email_row) : count_triggers (remove_triggers r) = 0%nat.
Proof.
  unfold count_triggers, remove_triggers. cbn [cells].
  induction (cells r) as [|c cs IH]; [reflexivity|].
  cbn [map children]. rewrite list_sum_cons_eq, IH.
  unfold triggers_in.
  induction (children c) as [|el els IHe]; [reflexivity|].
  cbn [List.filter]. destruct (is_trigger el) eqn:Ht; cbn [negb]; [exact IHe|].
  cbn [List.filter]. rewrite Ht. exact IHe.
Qed.

Lemma remove_triggers_processed (r : email_row) :
  is_processed r = true ->
  is_processed (remove_triggers r) = true /\
  visit_row (remove_triggers r) = (remove_triggers r, None).
Proof.
  intros Hp. split; [exact Hp|].
  unfold visit_row, selected. cbn [remove_triggers row_classList row_attributes].
  unfold is_processed in Hp. rewrite Hp, andb_false_r. reflexivity.
Qed.

(** X14.  The method [cleanup] removes every trigger button but leaves
    the class [unclut-processed] on the rows and the menus in the body.
    A run of [injectButtons] after it therefore passes over every row
    that was augmented or already marked before: such a row stays
    marked and is left without any trigger button. *)
Theorem buttons_not_restored_after_cleanup (self : instance_fields) (d : document) :
  let '(self', cleaned, effs) := cleanup_instance self (injectButtons d) in
  this_observer self' = false /\ this_toastTimeout self' = None /\
  this_initialized self' = false /\
  body_menus cleaned = body_menus (injectButtons d) /\
  Forall (fun r => count_triggers r = 0%nat) (rows cleaned) /\
  Forall2 (fun r r2 =>
             if is_processed r
                || match augmented_for r with Some _ => true | None => false end
             then is_processed r2 = true /\ count_triggers r2 = 0%nat
             else True)
          (rows d) (rows (injectButtons cleaned)).
Proof.
  unfold cleanup_instance. cbn [this_observer this_toastTimeout this_initialized].
  refine (conj eq_refl (conj eq_refl (conj eq_refl (conj eq_refl (conj _ _))))).
  - unfold remove_all_triggers. cbn [rows].
    induction (rows (injectButtons d)) as [|r l IH]; constructor;
      [apply remove_triggers_count | exact IH].
  - unfold injectButtons, remove_all_triggers. cbn [rows].
    induction (rows d) as [|r l IH]; [constructor|].
    cbn [map]. constructor; [|exact IH].
    pose proof (visit_row_spec r) as Hspec.
    pose proof (processed_not_augmented r) as Hskip.
    destruct (is_processed r) eqn:Hp; cbn [orb].
    + rewrite (Hskip eq_refl) in Hspec. rewrite Hspec. cbn [fst].
      destruct (remove_triggers_processed r Hp) as [Hp' ->]. cbn [fst].
      split; [exact Hp' | apply remove_triggers_count].
    + destruct (augmented_for r) as [e|]; [|exact I].
      destruct Hspec as (_ & Hp' & _).
      destruct (remove_triggers_processed _ Hp') as [Hp'' ->]. cbn [fst].
      split; [exact Hp'' | apply remove_triggers_count].
Qed.

End CleanupReinjection.

(** ** Menus *)

Section Menus.
Import Js ContentScript.

Lemma hidden_all_closed (menus : list menu) : open_menus (map hide menus) = 0%nat.
Proof.
  unfold open_menus. induction menus as [|m rest IH]; [reflexivity | exact IH].
Qed.

Lemma open_menus_cons (m : menu) (rest : list menu) :
  open_menus (m :: rest) = ((if is_open m then 1 else 0) + open_menus rest)%nat.
Proof. unfold open_menus. cbn [List.filter]. destruct (is_open m); reflexivity. Qed.

Lemma toggle_open (m : menu) : is_open (toggle m) = negb (is_open m).
Proof.
  unfold is_open, toggle. cbn [display].
  destruct (String.eqb (display m) "block"); reflexivity.
Qed.

Lemma click_trigger_open (i : nat) : forall menus,
  open_menus (click_trigger i menus)
  = match menus !! i with
    | Some m => if is_open m then 0%nat else 1%nat
    | None => 0%nat
    end.
Proof.
  induction i as [|i IH]; intros [|m rest]; try reflexivity.
  - cbn [click_trigger]. rewrite open_menus_cons, toggle_open, hidden_all_closed.
    cbn [lookup list_lookup]. destruct (is_open m); reflexivity.
  - cbn [click_trigger]. rewrite open_menus_cons.
    change (is_open (hide m)) with false. apply IH.
Qed.

Lemma click_trigger_length (i : nat) : forall menus,
  length (click_trigger i menus) = length menus.
Proof.
  induction i as [|i IH]; intros [|m rest]; try reflexivity.
  - cbn. rewrite length_map. reflexivity.
  - cbn. rewrite IH. reflexivity.
Qed.

Lemma click_trigger_lookup (i : nat) : forall menus,
  click_trigger i menus !! i = toggle <$> menus !! i.
Proof.
  induction i as [|i IH]; intros [|m rest]; try reflexivity. apply IH.
Qed.

(** X15.  After a click on any trigger, whatever the menus showed
    before, at most one menu is open: the clicked one if it was closed,
    none if it was open; a second click on the same trigger puts the
    clicked menu back as it was, with every other menu closed; and the
    menus that [injectButtons] appends start closed. *)
Theorem at_most_one_menu_open (i : nat) (menus : list menu) (d : document) :
  (open_menus (click_trigger i menus) <= 1)%nat /\
  open_menus (click_trigger i menus)
  = match menus !! i with
    | Some m => if is_open m then 0%nat else 1%nat
    | None => 0%nat
    end /\
  open_menus (click_trigger i (click_trigger i menus))
  = match menus !! i with
    | Some m => if is_open m then 1%nat else 0%nat
    | None => 0%nat
    end /\
  open_menus (body_menus (injectButtons d)) = open_menus (body_menus d).
Proof.
  pose proof (click_trigger_open i menus) as H1.
  repeat split.
  - rewrite H1. destruct (menus !! i) as [m|]; [destruct (is_open m)|]; lia.
  - exact H1.
  - rewrite click_trigger_open, click_trigger_lookup.
    destruct (menus !! i) as [m|]; [|reflexivity]. cbn [fmap option_fmap option_map].
    rewrite toggle_open. destruct (is_open m); reflexivity.
  - unfold injectButtons. cbn [body_menus]. unfold open_menus.
    rewrite List.filter_app, length_app.
    assert (Hnew : forall l, List.filter is_open (omap snd (map visit_row l)) = []).
    { induction l as [|r l IH]; [reflexivity|].
      cbn [map]. rewrite omap_cons_eq. pose proof (visit_row_spec r) as Hs.
      destruct (augmented_for r) as [e|].
      - destruct Hs as (_ & _ & _ & ->). cbn [List.filter]. exact IH.
      - rewrite Hs. exact IH. }
    rewrite Hnew. cbn. lia.
Qed.

End Menus.

(** ** The throttle of the mutation observer *)

Section Throttle.
Import Js ContentScript.

Lemma observer_step_throttled (fired : nat) (o : observer_state) (ev : observer_event) :
  throttle_timers o = (if processingMutations o then 1 else 0)%nat ->
  (injections o + (if processingMutations o then 0 else 1) <= 2 + fired)%nat ->
  let o' := observer_step o ev in
  let fired' := ((if is_throttle_timer ev then 1 else 0) + fired)%nat in
  throttle_timers o' = (if processingMutations o' then 1 else 0)%nat /\
  (injections o' + (if processingMutations o' then 0 else 1) <= 2 + fired')%nat.
Proof.
  intros Ht Hi. destruct ev as [d|]; cbn [observer_step is_throttle_timer].
  - unfold shouldProcessMutations. cbn [processingMutations].
    destruct (processingMutations o); cbn in *; split; lia.
  - destruct (throttle_timers o) as [|n] eqn:Hn.
    + cbn. split; [rewrite Hn; exact Ht | lia].
    + destruct (processingMutations o); [|discriminate].
      injection Ht as ->. cbn in *. split; lia.
Qed.

(** X16.  From [setupMutationObserver] on, whatever batches of
    mutations and timer expiries arrive, a throttle timer is pending
    exactly while the flag [processingMutations] is set, so the flag is
    always cleared again; and [injectButtons] has run at most twice more
    than throttle timers could have expired: once at set-up and at most
    once per throttle window, every other batch being dropped. *)
Theorem injections_are_throttled (d : document) (evs : list observer_event) :
  let o := observer_run evs (setupMutationObserver d) in
  throttle_timers o = (if processingMutations o then 1 else 0)%nat /\
  (injections o <= 2 + length (List.filter is_throttle_timer evs))%nat /\
  processingMutations (observer_step o ThrottleTimer) = false /\
  throttle_timers (observer_step o ThrottleTimer) = 0%nat.
Proof.
  cbv zeta.
  assert (Hgen : forall evs o fired,
    throttle_timers o = (if processingMutations o then 1 else 0)%nat ->
    (injections o + (if processingMutations o then 0 else 1) <= 2 + fired)%nat ->
    throttle_timers (observer_run evs o)
    = (if processingMutations (observer_run evs o) then 1 else 0)%nat /\
    (injections (observer_run evs o)
     + (if processingMutations (observer_run evs o) then 0 else 1)
     <= 2 + (length (List.filter is_throttle_timer evs) + fired))%nat).
  { clear. induction evs as [|ev evs IH]; intros o fired Ht Hi.
    - split; [exact Ht|]. cbn [observer_run fold_left List.filter length]. lia.
    - destruct (observer_step_throttled fired o ev Ht Hi) as [Ht' Hi'].
      destruct (IH _ _ Ht' Hi') as [Ht'' Hi'']. split; [exact Ht''|].
      unfold observer_run in *. cbn [fold_left List.filter] in *.
      destruct (is_throttle_timer ev); cbn [length] in *; lia. }
  destruct (Hgen evs (setupMutationObserver d) 0%nat eq_refl) as [Ht Hi];
    [cbn; lia|].
  split; [exact Ht|]. split; [destruct (processingMutations _); lia|].
  cbn [observer_step]. destruct (throttle_timers _) as [|n] eqn:Hn.
  - destruct (processingMutations _); [discriminate | split; [reflexivity | exact Hn]].
  - destruct (processingMutations _); [|discriminate].
    injection Ht as ->. split; reflexivity.
Qed.

End Throttle.

(** ** Successive toasts *)

Section Toasts.
Import Js ContentScript.

Lemma live_toast_timers_app (a b : list ui_effect) : forall live,
  live_toast_timers (a ++ b) live = live_toast_timers b (live_toast_timers a live).
Proof.
  induction a as [|e a IH]; intros live; [reflexivity|].
  destruct e as [| | | | [id|] | | |]; cbn [app live_toast_timers]; apply IH.
Qed.

Lemma toasts_appended_app (a b : list ui_effect) :
  toasts_appended (a ++ b) = (toasts_appended a + toasts_appended b)%nat.
Proof. unfold toasts_appended. rewrite List.filter_app, length_app. reflexivity. Qed.

Lemma showToast_timers (message : string) (showUndo isSuccess : bool) (s : toast_state) :
  let '(s', effs) := showToast message showUndo isSuccess s in
  live_toast_timers effs (as_list (toastTimeout s)) = as_list (toastTimeout s') /\
  toasts_appended effs = (match toast s with None => 1 | Some _ => 0 end)%nat /\
  toast s' <> None /\ toastTimeout s' <> None.
Proof.
  unfold showToast, toasts_appended.
  destruct (toast s); destruct (toastTimeout s) as [id|];
    cbn [app live_toast_timers as_list List.filter length negb toast toastTimeout];
    rewrite ?Nat.eqb_refl; cbn; repeat split; discriminate.
Qed.

Lemma show_toasts_timers (calls : list toast_call) : forall s,
  let '(s', effs) := show_toasts calls s in
  live_toast_timers effs (as_list (toastTimeout s)) = as_list (toastTimeout s') /\
  (toast s <> None -> toasts_appended effs = 0%nat) /\
  (toast s <> None -> toast s' <> None) /\
  (toastTimeout s <> None -> toastTimeout s' <> None).
Proof.
  induction calls as [|[[message showUndo] isSuccess] calls IH]; intros s.
  - cbn. repeat split; auto.
  - cbn [show_toasts].
    pose proof (showToast_timers message showUndo isSuccess s) as H1.
    destruct (showToast message showUndo isSuccess s) as [s1 effs1].
    destruct H1 as (Hl1 & Ha1 & Hn1 & Ht1).
    specialize (IH s1). destruct (show_toasts calls s1) as [s2 effs2].
    destruct IH as (Hl2 & Ha2 & Hn2 & Ht2).
    split; [rewrite live_toast_timers_app, Hl1; exact Hl2|].
    split; [|split; auto].
    intros Hs. rewrite toasts_appended_app, Ha1, (Ha2 Hn1).
    destruct (toast s); [reflexivity | contradiction].
Qed.

(** X17.  Over any number of successive [showToast] calls, the toast
    element is appended to the body at most once, and only if the
    document did not have one, and every call clears the hide timer of
    the call before it: after the calls exactly one hide timer is left
    pending, the one of the last call. *)
Theorem one_toast_one_timer (call : toast_call) (calls : list toast_call) (s : toast_state) :
  let '(s', effs) := show_toasts (call :: calls) s in
  toasts_appended effs = (match toast s with None => 1 | Some _ => 0 end)%nat /\
  (exists id, toastTimeout s' = Some id /\
              live_toast_timers effs (as_list (toastTimeout s)) = [id]).
Proof.
  destruct call as [[message showUndo] isSuccess]. cbn [show_toasts].
  pose proof (showToast_timers message showUndo isSuccess s) as H1.
  destruct (showToast message showUndo isSuccess s) as [s1 effs1].
  destruct H1 as (Hl1 & Ha1 & Hn1 & Ht1).
  pose proof (show_toasts_timers calls s1) as H2.
  destruct (show_toasts calls s1) as [s2 effs2].
  destruct H2 as (Hl2 & Ha2 & _ & Ht2). split.
  - rewrite toasts_appended_app, Ha1, (Ha2 Hn1). lia.
  - destruct (toastTimeout s2) as [id|] eqn:Hid; [|exfalso; exact (Ht2 Ht1 eq_refl)].
    exists id. split; [reflexivity|].
    rewrite live_toast_timers_app, Hl1, Hl2. reflexivity.
Qed.

End Toasts.

(** ** Navigation inside the page *)

Section Navigation.
Import Js ContentScript.

Lemma last_any_default {A} (l : list A) (a : A) (l' : list A) :
  l = a :: l' -> forall d d', List.last l d = List.last l d'.
Proof.
  revert a l'. induction l as [|b l IH]; intros a l' Hl d d'; [discriminate|].
  destruct l as [|c l]; [reflexivity|]. apply (IH c l eq_refl).
Qed.

(** X18.  Over any sequence of calls of [handleUrlChange], the extension
    is reinitialised once for every call that finds an address different
    from the one seen before it, and never for a call that finds the
    same address again; afterwards [lastUrl] is the address of the last
    call. *)
Theorem reinitialised_once_per_change (hrefs : list string) (n : navigation) :
  reinitializations (navigate hrefs n)
  = (reinitializations n + address_changes (lastUrl n) hrefs)%nat /\
  lastUrl (navigate hrefs n) = List.last hrefs (lastUrl n).
Proof.
  revert n. induction hrefs as [|href rest IH]; intros n.
  - cbn. split; [lia | reflexivity].
  - unfold navigate in *. cbn [fold_left address_changes].
    destruct (IH (handleUrlChange href n)) as [Hr Hl]. rewrite Hr, Hl.
    unfold handleUrlChange.
    destruct (String.eqb_spec href (lastUrl n)) as [-> | Hne]; cbn [negb lastUrl reinitializations].
    + split; [lia|]. destruct rest; reflexivity.
    + split; [lia|]. destruct rest as [|s rest]; [reflexivity|].
      apply (last_any_default (s :: rest) s rest eq_refl).
Qed.

End Navigation.

(** ** The sender's address *)

Section SenderEmail.
Import Js Dom GmailUtils.

Lemma find_none_forall {A} (f : A -> bool) (l : list A) :
  find f l = None <-> Forall (fun x => f x = false) l.
Proof.
  induction l as [|a l IH]; cbn [find].
  - split; [constructor | reflexivity].
  - destruct (f a) eqn:Hfa.
    + split; [discriminate | intros H; inversion H; congruence].
    + rewrite IH. split; [intros H; constructor; assumption | intros H; inversion H; assumption].
Qed.

Lemma find_some_holds {A} (f : A -> bool) (l : list A) (a : A) :
  find f l = Some a -> f a = true.
Proof.
  induction l as [|b l IH]; cbn [find]; [discriminate|].
  destruct (f b) eqn:Hfb; [intros H; injection H as <-; exact Hfb | exact IH].
Qed.

(** X19.  [getSenderEmail] returns [null] exactly when no descendant of
    the row carries an [email] attribute and none carries a [name]
    attribute. *)
Theorem getSenderEmail_null_iff (r : row) :
  getSenderEmail r = None <->
  Forall (fun el => hasAttribute "email" el = false /\ hasAttribute "name" el = false)
         (descendants r).
Proof.
  unfold getSenderEmail, querySelectorAttr.
  pose proof (find_none_forall (hasAttribute "email") (descendants r)) as He.
  pose proof (find_none_forall (hasAttribute "name") (descendants r)) as Hn.
  pose proof (find_some_holds (hasAttribute "email") (descendants r)) as Hse.
  pose proof (find_some_holds (hasAttribute "name") (descendants r)) as Hsn.
  rewrite Forall_and.
  destruct (find (hasAttribute "email") (descendants r)) as [el|].
  - specialize (Hse el eq_refl). unfold hasAttribute in Hse.
    split.
    + intros H. rewrite H in Hse. discriminate.
    + intros [H _]. apply He in H. discriminate.
  - destruct (find (hasAttribute "name") (descendants r)) as [el|].
    + specialize (Hsn el eq_refl). unfold hasAttribute in Hsn.
      split.
      * intros H. rewrite H in Hsn. discriminate.
      * intros [_ H]. apply Hn in H. discriminate.
    + split; [intros _; split; [apply He | apply Hn]; reflexivity | reflexivity].
Qed.

(** X19 on a row whose only descendant carries neither attribute. *)
Lemma getSenderEmail_null_iff_witness :
  getSenderEmail
    {| descendants := [ {| tagName := "span"; attributes := [("class", "yW")];
                           classList := ["yW"]; textContent := "News" |} ] |} = None.
Proof.
  apply getSenderEmail_null_iff. repeat constructor.
Defined.

End SenderEmail.

(** ** What injection adds, and initialisation as a whole *)

Section Initialisation.
Import Js Dom ContentScript.

Lemma insert_after_sender_content (els : list element) :
  List.filter (fun el => negb (is_trigger el)) (insert_after_sender els)
  = List.filter (fun el => negb (is_trigger el)) els.
Proof.
  induction els as [|el rest IH]; [reflexivity|].
  cbn [insert_after_sender]. destruct (is_sender_span el).
  - cbn [List.filter]. change (is_trigger trigger) with true. cbn [negb]. reflexivity.
  - cbn [List.filter]. rewrite IH. reflexivity.
Qed.

Lemma insert_trigger_content (cs : list cell) :
  map (fun c => List.filter (fun el => negb (is_trigger el)) (children c)) (insert_trigger cs)
  = map (fun c => List.filter (fun el => negb (is_trigger el)) (children c)) cs.
Proof.
  induction cs as [|c rest IH]; [reflexivity|].
  cbn [insert_trigger].
  destruct (is_thread_cell c && existsb is_sender_span (children c)).
  - cbn [map children]. rewrite insert_after_sender_content. reflexivity.
  - cbn [map]. rewrite IH. reflexivity.
Qed.

Lemma insert_trigger_attributes (cs : list cell) :
  map cell_attributes (insert_trigger cs) = map cell_attributes cs.
Proof.
  induction cs as [|c rest IH]; [reflexivity|].
  cbn [insert_trigger].
  destruct (is_thread_cell c && existsb is_sender_span (children c)).
  - reflexivity.
  - cbn [map]. rewrite IH. reflexivity.
Qed.

(** X20.  [injectButtons] only adds: it keeps the number and order of
    the rows, every row keeps its attributes, the attributes of its
    cells and, apart from trigger buttons, the children of its cells in
    their order, and its class list is the one it had, with
    [unclut-processed] appended when the row was augmented; no menu
    already in the body is dropped. *)
Theorem injectButtons_only_adds (d : document) :
  Forall2 (fun r r' =>
             row_attributes r' = row_attributes r /\
             map cell_attributes (cells r') = map cell_attributes (cells r) /\
             content_of r' = content_of r /\
             row_classList r'
             = match augmented_for r with
               | Some _ => (row_classList r ++ ["unclut-processed"])%list
               | None => row_classList r
               end)
          (rows d) (rows (injectButtons d)) /\
  length (rows (injectButtons d)) = length (rows d) /\
  firstn (length (body_menus d)) (body_menus (injectButtons d)) = body_menus d.
Proof.
  unfold injectButtons. cbn [rows body_menus]. split; [|split].
  - induction (rows d) as [|r l IH]; [constructor|].
    cbn [map]. constructor; [|exact IH].
    unfold augmented_for, visit_row, process_row, selected, content_of.
    destruct (match lookup_attribute "role" (row_attributes r) with
              | Some role => String.eqb role "row" | None => false end); cbn [andb];
      [|repeat split; reflexivity].
    destruct (has_class "unclut-processed" (row_classList r)); cbn [negb];
      [repeat split; reflexivity|].
    destruct (find_sender_cell (cells r)) as [senderCell|]; [|repeat split; reflexivity].
    destruct (getAttribute "email" senderCell) as [senderEmail|];
      [|repeat split; reflexivity].
    destruct (truthy_string senderEmail); [|repeat split; reflexivity].
    cbn [fst row_attributes row_classList cells].
    rewrite insert_trigger_content, insert_trigger_attributes. repeat split; reflexivity.
  - rewrite !length_map. reflexivity.
  - rewrite firstn_app, Nat.sub_diag, firstn_all. cbn. apply app_nil_r.
Qed.

Lemma fallback_fulfils (p : page) (evs : list wait_event) :
  is_fulfilled (deliver_all (evs ++ [FallbackTimeout]) (waitForGmailContainer p)) = true.
Proof.
  destruct (waitForGmailContainer_shape p) as [H0 _].
  destruct (deliver_all_shape (evs ++ [FallbackTimeout]) _ H0) as [_ Hf].
  rewrite Hf, existsb_app. cbn. rewrite !orb_true_r. reflexivity.
Qed.

(** X21.  A call of [init()] on an instance that is not initialized,
    once the readiness detector has been delivered its fallback timer,
    runs to the end: the flag is set, the document is as one run of
    [injectButtons] leaves it, with no row left to augment, there is
    exactly one style element if there was none or one before, and the
    background script has been told once.  [injectButtons] has run
    twice if the first run found nothing to augment; otherwise the
    observer's callback has run it a third time, and the throttle flag
    is set with its timer pending.  A further call of [init()] then
    changes nothing and sends nothing. *)
Theorem init_runs_once (s : init_state) (p p' : page) (evs evs' : list wait_event) :
  is_initialized s = false ->
  let '(s1, effs) := init s p (evs ++ [FallbackTimeout]) in
  is_initialized s1 = true /\
  page_document s1 = injectButtons (page_document s) /\
  Forall (fun r => augmented_for r = None) (rows (page_document s1)) /\
  instance_observer s1
  = Some {| processingMutations := augments (page_document s);
            throttle_timers := if augments (page_document s) then 1 else 0;
            shown := injectButtons (page_document s);
            injections := if augments (page_document s) then 3 else 2 |} /\
  (style_elements s <= 1 -> style_elements s1 = 1)%nat /\
  init_sends effs = [Chrome.ExtensionInitialized] /\
  fst (init s1 p' evs') = s1 /\
  init_sends (snd (init s1 p' evs')) = [].
Proof.
  intros Hinit. unfold init. rewrite Hinit, fallback_fulfils.
  assert (Hobs :
    (if augments (page_document s)
     then observer_step
            {| processingMutations := false; throttle_timers := 0;
               shown := injectButtons (injectButtons (page_document s));
               injections := 2 |}
            (MutationBatch (injectButtons (injectButtons (page_document s))))
     else {| processingMutations := false; throttle_timers := 0;
             shown := injectButtons (injectButtons (page_document s));
             injections := 2 |})
    = {| processingMutations := augments (page_document s);
         throttle_timers := if augments (page_document s) then 1 else 0;
         shown := injectButtons (page_document s);
         injections := if augments (page_document s) then 3 else 2 |}).
  { destruct (augments (page_document s)).
    - cbn [observer_step shouldProcessMutations processingMutations throttle_timers
           shown injections].
      rewrite !injectButtons_twice. reflexivity.
    - rewrite injectButtons_twice. reflexivity. }
  cbn [setupMutationObserver processingMutations throttle_timers shown injections].
  rewrite Hobs.
  cbn [is_initialized page_document instance_observer style_elements fst snd shown].
  refine (conj eq_refl (conj eq_refl (conj _ (conj eq_refl (conj _ (conj _ (conj eq_refl eq_refl))))))).
  - unfold injectButtons. cbn [rows].
    induction (rows (page_document s)) as [|r l IH]; [constructor|].
    cbn [map]. constructor; [apply visit_row_settled | exact IH].
  - unfold injectStyles. destruct (style_elements s) as [|[|n]]; [reflexivity | reflexivity | lia].
  - unfold init_sends. cbn [flat_map app]. rewrite flat_map_app.
    assert (Hwait : forall l : list effect,
              flat_map (fun e => match e with InitSend m => [m] | _ => [] end)
                       (map InitWaiting l) = [])
      by (induction l as [|e l IH]; [reflexivity | exact IH]).
    rewrite Hwait. reflexivity.
Qed.

(** X21 on the sample inbox, on a page that never becomes ready: the
    first row is augmented, so the observer's callback injects a third
    time. *)
Lemma init_runs_once_witness :
  let s := {| is_initialized := false; instance_observer := None;
              style_elements := 0; page_document := sample_document |} in
  let p := {| hostname := "mail.google.com";
              has_main_container := false; has_email_list := false |} in
  is_initialized (fst (init s p [Mutation p; FallbackTimeout])) = true /\
  page_document (fst (init s p [Mutation p; FallbackTimeout]))
  = injectButtons sample_document /\
  option_map injections (instance_observer (fst (init s p [Mutation p; FallbackTimeout])))
  = Some 3%nat.
Proof.
  intros s p.
  pose proof (init_runs_once s p p [Mutation p] [] eq_refl) as H.
  change ([Mutation p] ++ [FallbackTimeout])%list with [Mutation p; FallbackTimeout] in H.
  destruct (init s p [Mutation p; FallbackTimeout]) as [s1 effs].
  destruct H as (H1 & H2 & _ & H3 & _). cbn [fst]. rewrite H3.
  split; [exact H1|]. split; [exact H2 | reflexivity].
Defined.

End Initialisation.
